(** * Verification of the AtVenu settlement fetcher (src/8_13_test_streamlit.py)

    Shallow embedding of [AtVenuDataFetcher] and of the table built in [main].
    The GraphQL server is a parameter: the function [srv] answers the k-th
    request of a run; [None] models a POST that does not complete.
    [logger.debug] calls are not modelled: the logger level is INFO, so they
    produce nothing.  The [while True] pagination loops take a [fuel] argument;
    running out of fuel stands for a loop that has not terminated. *)

From Stdlib Require Import ZArith List String Lia Bool.
From stdpp Require Import base gmap strings.
Import ListNotations.
Open Scope Z_scope.

(* ------------------------------------------------------------------ *)
(** ** Data model (shapes of the GraphQL responses) *)

(** A JSON field read with [dict.get]: absent key, JSON null, or a value. *)
Inductive jfield (A : Type) : Type :=
| JMissing
| JNull
| JVal (x : A).
Arguments JMissing {A}.
Arguments JNull {A}.
Arguments JVal {A} x.

(** A connection page: [nodes] and [pageInfo {hasNextPage endCursor}]. *)
Record Page (A : Type) : Type := mkPage {
  nodes : list A;
  hasNextPage : bool;
  endCursor : option string
}.
Arguments mkPage {A} nodes hasNextPage endCursor.
Arguments nodes {A} p.
Arguments hasNextPage {A} p.
Arguments endCursor {A} p.

Record Account := mkAccount { acc_uuid : string; artistName : string }.
Record Tour := mkTour { tour_uuid : string; tourName : string }.
Record Location := mkLocation { city : string; stateProvince : string; country : string }.
Record Show := mkShow {
  show_uuid : string;
  showDate : string;
  location : Location
}.

(** A show dict after [fetch_shows_in_date_range] attached
    [show['account']] and [show['tour']]. *)
Record AShow := mkAShow { a_show : Show; a_account : Account; a_tour : Tour }.

(** Prices are numbers; what matters below is Python truthiness: [0] is falsy. *)
Record MerchVariant := mkVariant {
  sku : string;
  size : string;
  var_uuid : string;
  price : option Z
}.
Record MerchItem := mkItem {
  item_name : string;
  category : string;
  item_uuid : string;
  merchVariants : list MerchVariant
}.

Record MerchAdd := mkAdd { quantity : jfield Z }.
Record CountNode := mkCount {
  merchVariantUuid : string;
  priceOverride : option Z;
  countIn : jfield Z;
  countOut : jfield Z;
  comps : jfield Z;
  merchAdds : jfield (list MerchAdd)
}.
Record Settlement := mkSettlement { path : string; mainCounts : Page CountNode }.

(** [result['data']] of each of the five queries. *)
Inductive Data :=
| DAccounts (p : Page Account)        (* data.organization.accounts *)
| DTours (p : Page Tour)              (* data.account.tours *)
| DShows (p : Page Show)              (* data.tour.shows *)
| DMerch (p : Page MerchItem)         (* data.account.merchItems *)
| DCounts (settlements : list Settlement). (* data.show.settlements *)

(** The parsed JSON body: ['data'] and the optional ['errors'] key. *)
Record Payload := mkPayload { data : Data; errors : option (list string) }.

Record HttpResp := mkResp { status_code : Z; payload : Payload; text : string }.

Inductive Query := QAccounts | QTours | QShows | QMerch | QCounts.

(** The POST body: the query document and its [variables] (null as [None]). *)
Record Request := mkRequest { rq_query : Query; rq_vars : list (string * option string) }.

(** The exceptions the code can raise. *)
Inductive error :=
| ConnectionError                       (* requests.post did not complete *)
| StatusFailed (code : Z) (body : string) (* "Query failed with status code" *)
| GraphQLFailed (errs : list string)     (* "GraphQL query failed" *)
| KeyError
| IndexError
| TypeError
| ValueError
| OutOfFuel.

Inductive res (A : Type) := Ok (x : A) | Err (e : error).
Arguments Ok {A} x.
Arguments Err {A} e.

(** The [logger.info] lines of the fetcher, with their parameters. *)
Inductive LogLine :=
| LFetchingShows (s e : string)
| LFetchingTours (artist : string)
| LFetchingShowsOfTour (tour : string)
| LFetchedShows (n : nat)
| LFetchingMerch (u : string)
| LFetchedMerch (n : nat) (u : string)
| LFetchingCounts (u : string)
| LFetchedCounts (n : nat) (u : string)
| LFetchingAll (s e : string)
| LProcessingShow (u d : string)
| LFetchedAll (n : nat).

(** Observable events: a query (its "Executing query" log line and its POST),
    or another log line. *)
Inductive Event := EvQuery (r : Request) | EvLog (l : LogLine).

Record St := mkSt { nreq : nat; trace : list Event }.

(* ------------------------------------------------------------------ *)
(** ** State and error monad *)

Definition M (A : Type) := St -> St * res A.

Definition ret {A} (x : A) : M A := fun s => (s, Ok x).
Definition raise {A} (e : error) : M A := fun s => (s, Err e).
Definition bind {A B} (m : M A) (k : A -> M B) : M B :=
  fun s => match m s with
           | (s', Ok x) => k x s'
           | (s', Err e) => (s', Err e)
           end.
Definition lift {A} (r : res A) : M A :=
  fun s => (s, r).
Definition log (l : LogLine) : M unit :=
  fun s => (mkSt (nreq s) (trace s ++ [EvLog l]), Ok tt).

Notation "'let*' x ':=' m 'in' k" := (bind m (fun x => k))
  (at level 200, x name, m at level 100, k at level 200).

(* ------------------------------------------------------------------ *)
(** ** Pure parts: [calculate_sold] and the variant join *)

(** [d.get(k, default)]: the default when the key is absent, [None] for null. *)
Definition py_get {A} (f : jfield A) (d : A) : option A :=
  match f with
  | JMissing => Some d
  | JNull => None
  | JVal x => Some x
  end.

(** [v or 0] on an int-or-None value. *)
Definition or0 (v : option Z) : Z :=
  match v with
  | None => 0
  | Some z => if Z.eqb z 0 then 0 else z
  end.

Definition sum_Z (l : list Z) : Z := fold_right Z.add 0 l.

(** [calculate_sold]; iterating over a null [merchAdds] raises [TypeError]. *)
Definition calculate_sold (count : CountNode) : res Z :=
  let count_in := or0 (py_get (countIn count) 0) in
  let count_out := or0 (py_get (countOut count) 0) in
  let comps_ := or0 (py_get (comps count) 0) in
  match py_get (merchAdds count) [] with
  | None => Err TypeError
  | Some adds_l =>
      let adds := sum_Z (map (fun add => or0 (py_get (quantity add) 0)) adds_l) in
      Ok (count_in + adds - count_out - comps_)
  end.

(** The generator [(item for item in merchandise for variant in
    item['merchVariants'] if variant['uuid'] == u)]. *)
Definition matching_items (merchandise : list MerchItem) (u : string) : list MerchItem :=
  flat_map (fun item =>
              map (fun _ => item)
                  (List.filter (fun variant => String.eqb (var_uuid variant) u)
                          (merchVariants item)))
           merchandise.

(** [next(gen, None)] over that generator. *)
Definition find_merch_item (merchandise : list MerchItem) (u : string) : option MerchItem :=
  hd_error (matching_items merchandise u).

(** [next((v for v in merch_item['merchVariants'] if v['uuid'] == u), None)]. *)
Definition find_variant (merch_item : MerchItem) (u : string) : option MerchVariant :=
  find (fun v => String.eqb (var_uuid v) u) (merchVariants merch_item).

(** The value of the 'Price' cell: a number, None, or the string 'N/A'. *)
Inductive PriceOut := PNum (z : Z) | PNull | PNA.

(** [count['priceOverride'] or (variant['price'] if variant else 'N/A')]. *)
Definition price_cell (count : CountNode) (variant : option MerchVariant) : PriceOut :=
  let fallback :=
    match variant with
    | Some v => match price v with Some q => PNum q | None => PNull end
    | None => PNA
    end in
  match priceOverride count with
  | Some p => if Z.eqb p 0 then fallback else PNum p
  | None => fallback
  end.

(** One row of [all_data]. *)
Record SoldRecord := mkSold {
  Band : string;
  TourName : string;
  Venue : string;
  ProductName : string;
  Size : string;
  SKU : string;
  In_ : Z;
  Out_ : Z;
  Sold : Z;
  ShowDate : string;
  Price : PriceOut
}.

(** The body of [for count in counts] in [fetch_all_data]. *)
Definition emit_count (show : AShow) (merchandise : list MerchItem) (count : CountNode)
  : res (option SoldRecord) :=
  match find_merch_item merchandise (merchVariantUuid count) with
  | None => Ok None
  | Some merch_item =>
      let variant := find_variant merch_item (merchVariantUuid count) in
      match calculate_sold count with
      | Err e => Err e
      | Ok sold =>
          let loc := location (a_show show) in
          Ok (Some (mkSold
            (artistName (a_account show))
            (tourName (a_tour show))
            (city loc ++ ", " ++ stateProvince loc ++ ", " ++ country loc)
            (item_name merch_item)
            (match variant with Some v => size v | None => "N/A" end)
            (match variant with Some v => sku v | None => "N/A" end)
            (or0 (py_get (countIn count) 0))
            (or0 (py_get (countOut count) 0))
            sold
            (showDate (a_show show))
            (price_cell count variant)))
      end
  end.

Definition option_list {A} (o : option A) : list A :=
  match o with Some x => [x] | None => [] end.

(** The loop [for count in counts], returning the records it appends. *)
Fixpoint join_counts (show : AShow) (merchandise : list MerchItem) (counts : list CountNode)
  : res (list SoldRecord) :=
  match counts with
  | [] => Ok []
  | count :: rest =>
      match emit_count show merchandise count with
      | Err e => Err e
      | Ok o =>
          match join_counts show merchandise rest with
          | Err e => Err e
          | Ok rs => Ok (option_list o ++ rs)
          end
      end
  end.

(* ------------------------------------------------------------------ *)
(** ** The fetcher, against a server [srv] *)

Section Fetcher.

(** [srv k r]: the response to the k-th request [r] of the run. *)
Variable srv : nat -> Request -> option HttpResp.

(** [execute_query]: log the variables, POST, then check status and errors. *)
Definition execute_query (r : Request) : M Payload :=
  fun s =>
    let s' := mkSt (S (nreq s)) (trace s ++ [EvQuery r]) in
    match srv (nreq s) r with
    | None => (s', Err ConnectionError)
    | Some response =>
        if Z.eqb (status_code response) 200 then
          let result := payload response in
          match errors result with
          | Some es => (s', Err (GraphQLFailed es))
          | None => (s', Ok result)
          end
        else (s', Err (StatusFailed (status_code response) (text response)))
    end.

(** The [while True] loop shared by the five collectors: request the page at
    [cursor], extend the accumulator with its nodes, stop when
    [hasNextPage] is false, otherwise continue at [endCursor]. *)
Fixpoint paginate {A} (mkreq : option string -> Request) (extract : Payload -> res (Page A))
    (fuel : nat) (cursor : option string) (acc : list A) : M (list A) :=
  match fuel with
  | O => raise OutOfFuel
  | S fuel' =>
      let* result := execute_query (mkreq cursor) in
      let* page := lift (extract result) in
      let acc' := acc ++ nodes page in
      if negb (hasNextPage page) then ret acc'
      else paginate mkreq extract fuel' (endCursor page) acc'
  end.

End Fetcher.

(** The paths [result['data'][...]] read by each collector. *)
Definition accounts_page (result : Payload) : res (Page Account) :=
  match data result with DAccounts p => Ok p | _ => Err KeyError end.
Definition tours_page (result : Payload) : res (Page Tour) :=
  match data result with DTours p => Ok p | _ => Err KeyError end.
Definition shows_page (result : Payload) : res (Page Show) :=
  match data result with DShows p => Ok p | _ => Err KeyError end.
Definition merch_page (result : Payload) : res (Page MerchItem) :=
  match data result with DMerch p => Ok p | _ => Err KeyError end.
(** [result['data']['show']['settlements'][0]['mainCounts']]. *)
Definition counts_page (result : Payload) : res (Page CountNode) :=
  match data result with
  | DCounts (s0 :: _) => Ok (mainCounts s0)
  | DCounts [] => Err IndexError
  | _ => Err KeyError
  end.

Definition accounts_req (cursor : option string) : Request :=
  mkRequest QAccounts [("cursor", cursor)].
Definition tours_req (account_uuid : string) (cursor : option string) : Request :=
  mkRequest QTours [("accountUuid", Some account_uuid); ("cursor", cursor)].
Definition shows_req (tour_uuid : string) (start_date end_date : string)
    (cursor : option string) : Request :=
  mkRequest QShows [("tourUuid", Some tour_uuid); ("startDate", Some start_date);
                    ("endDate", Some end_date); ("cursor", cursor)].
Definition merch_req (account_uuid : string) (cursor : option string) : Request :=
  mkRequest QMerch [("uuid", Some account_uuid); ("cursor", cursor)].
Definition counts_req (show_uuid : string) (cursor : option string) : Request :=
  mkRequest QCounts [("uuid", Some show_uuid); ("cursor", cursor)].

Section Collectors.
Variable srv : nat -> Request -> option HttpResp.
Variable fuel : nat.

Definition fetch_accounts : M (list Account) :=
  paginate srv accounts_req accounts_page fuel None [].

Definition fetch_tours (account_uuid : string) : M (list Tour) :=
  paginate srv (tours_req account_uuid) tours_page fuel None [].

Definition fetch_shows (tour_uuid start_date end_date : string) : M (list Show) :=
  paginate srv (shows_req tour_uuid start_date end_date) shows_page fuel None [].

Definition fetch_merchandise (account_uuid : string) : M (list MerchItem) :=
  let* _ := log (LFetchingMerch account_uuid) in
  let* merch_items := paginate srv (merch_req account_uuid) merch_page fuel None [] in
  let* _ := log (LFetchedMerch (length merch_items) account_uuid) in
  ret merch_items.

Definition fetch_counts (show_uuid : string) : M (list CountNode) :=
  let* _ := log (LFetchingCounts show_uuid) in
  let* counts := paginate srv (counts_req show_uuid) counts_page fuel None [] in
  let* _ := log (LFetchedCounts (length counts) show_uuid) in
  ret counts.

(** [for tour in tours: ... for show in shows: all_shows.append(show)]. *)
Fixpoint tours_loop (start_date end_date : string) (account : Account) (tours : list Tour)
    (all_shows : list AShow) : M (list AShow) :=
  match tours with
  | [] => ret all_shows
  | tour :: rest =>
      let* _ := log (LFetchingShowsOfTour (tourName tour)) in
      let* shows := fetch_shows (tour_uuid tour) start_date end_date in
      tours_loop start_date end_date account rest
        (all_shows ++ map (fun show => mkAShow show account tour) shows)
  end.

Fixpoint accounts_loop (start_date end_date : string) (accounts : list Account)
    (all_shows : list AShow) : M (list AShow) :=
  match accounts with
  | [] => ret all_shows
  | account :: rest =>
      let* _ := log (LFetchingTours (artistName account)) in
      let* tours := fetch_tours (acc_uuid account) in
      let* all_shows' := tours_loop start_date end_date account tours all_shows in
      accounts_loop start_date end_date rest all_shows'
  end.

Definition fetch_shows_in_date_range (start_date end_date : string) : M (list AShow) :=
  let* _ := log (LFetchingShows start_date end_date) in
  let* accounts := fetch_accounts in
  let* all_shows := accounts_loop start_date end_date accounts [] in
  let* _ := log (LFetchedShows (length all_shows)) in
  ret all_shows.

(** [for show in shows:] of [fetch_all_data], with [merchandise_cache]. *)
Fixpoint shows_loop (shows : list AShow) (merchandise_cache : gmap string (list MerchItem))
    (all_data : list SoldRecord) : M (list SoldRecord) :=
  match shows with
  | [] => ret all_data
  | show :: rest =>
      let* _ := log (LProcessingShow (show_uuid (a_show show)) (showDate (a_show show))) in
      let account_uuid := acc_uuid (a_account show) in
      let* cache' :=
        match merchandise_cache !! account_uuid with
        | Some _ => ret merchandise_cache
        | None =>
            let* m := fetch_merchandise account_uuid in
            ret (<[account_uuid := m]> merchandise_cache)
        end in
      let* merchandise :=
        lift (match cache' !! account_uuid with Some m => Ok m | None => Err KeyError end) in
      let* counts := fetch_counts (show_uuid (a_show show)) in
      let* rows := lift (join_counts show merchandise counts) in
      shows_loop rest cache' (all_data ++ rows)
  end.

Definition fetch_all_data (start_date end_date : string) : M (list SoldRecord) :=
  let* _ := log (LFetchingAll start_date end_date) in
  let* shows := fetch_shows_in_date_range start_date end_date in
  let* all_data := shows_loop shows ∅ [] in
  let* _ := log (LFetchedAll (length all_data)) in
  ret all_data.

End Collectors.

(* ------------------------------------------------------------------ *)
(** ** The export table built in [main] *)

(** A pandas cell and a column-major DataFrame (column name, column). *)
Inductive Cell := CStr (s : string) | CInt (z : Z) | CNone.

Definition DataFrame := list (string * list Cell).

Definition price_to_cell (p : PriceOut) : Cell :=
  match p with PNum z => CInt z | PNull => CNone | PNA => CStr "N/A" end.

(** [pd.DataFrame(all_data)]: one column per dict key, none for an empty list. *)
Definition df_of_records (recs : list SoldRecord) : DataFrame :=
  match recs with
  | [] => []
  | _ =>
    [("Band", map (fun r => CStr (Band r)) recs);
     ("Tour Name", map (fun r => CStr (TourName r)) recs);
     ("Venue", map (fun r => CStr (Venue r)) recs);
     ("Product Name", map (fun r => CStr (ProductName r)) recs);
     ("Size", map (fun r => CStr (Size r)) recs);
     ("SKU", map (fun r => CStr (SKU r)) recs);
     ("In", map (fun r => CInt (In_ r)) recs);
     ("Out", map (fun r => CInt (Out_ r)) recs);
     ("Sold", map (fun r => CInt (Sold r)) recs);
     ("Show Date", map (fun r => CStr (ShowDate r)) recs);
     ("Price", map (fun r => price_to_cell (Price r)) recs)]
  end.

Definition nrows (df : DataFrame) : nat :=
  match df with [] => 0%nat | (_, col) :: _ => length col end.

(** [df[k]]. *)
Definition df_col (df : DataFrame) (k : string) : res (list Cell) :=
  match find (fun kc => String.eqb (fst kc) k) df with
  | Some (_, col) => Ok col
  | None => Err KeyError
  end.

(** [df[k] = col]: replace the column in place, or append a new one. *)
Definition df_set (df : DataFrame) (k : string) (col : list Cell) : DataFrame :=
  if existsb (fun kc => String.eqb (fst kc) k) df
  then map (fun kc => if String.eqb (fst kc) k then (k, col) else kc) df
  else df ++ [(k, col)].

(** [df[[k1, k2, ...]]]. *)
Fixpoint df_select (df : DataFrame) (ks : list string) : res DataFrame :=
  match ks with
  | [] => Ok []
  | k :: rest =>
      match df_col df k, df_select df rest with
      | Ok col, Ok sel => Ok ((k, col) :: sel)
      | Err e, _ => Err e
      | _, Err e => Err e
      end
  end.

(** [df.insert(loc, k, value)] with a scalar [value]. *)
Definition df_insert (df : DataFrame) (loc : nat) (k : string) (value : Cell) : res DataFrame :=
  if existsb (fun kc => String.eqb (fst kc) k) df then Err ValueError
  else if Nat.ltb (length df) loc then Err IndexError
  else Ok (firstn loc df ++ [(k, repeat value (nrows df))] ++ skipn loc df).

(** Series [+] on string columns, and with a string scalar. *)
Fixpoint cells_add (l1 l2 : list Cell) : res (list Cell) :=
  match l1, l2 with
  | [], [] => Ok []
  | CStr a :: r1, CStr b :: r2 =>
      match cells_add r1 r2 with Ok r => Ok (CStr (a ++ b) :: r) | Err e => Err e end
  | _, _ => Err TypeError
  end.
Definition cells_add_str (l : list Cell) (s : string) : res (list Cell) :=
  cells_add l (repeat (CStr s) (length l)).

(** Unary [-] on an int column. *)
Fixpoint cells_neg (l : list Cell) : res (list Cell) :=
  match l with
  | [] => Ok []
  | CInt z :: r => match cells_neg r with Ok r' => Ok (CInt (- z) :: r') | Err e => Err e end
  | _ :: _ => Err TypeError
  end.

(** [s.split(sep)[0]]: the part of [s] before the first [sep]. *)
Fixpoint split_first (sep s : string) : string :=
  match s with
  | EmptyString => EmptyString
  | String c rest => if String.prefix sep s then EmptyString else String c (split_first sep rest)
  end.

(** [.str.split(' - ').str[0]] on the Location column. *)
Definition first_segments (col : list Cell) : res (list string) :=
  fold_right (fun c acc =>
    match c, acc with
    | CStr s, Ok l => Ok (split_first " - " s :: l)
    | _, Err e => Err e
    | _, _ => Err TypeError
    end) (Ok []) col.

(** [Series.unique()]: distinct values in order of first appearance. *)
Fixpoint unique_from (seen : list string) (l : list string) : list string :=
  match l with
  | [] => []
  | x :: rest =>
      if existsb (String.eqb x) seen then unique_from seen rest
      else x :: unique_from (x :: seen) rest
  end.

(** [df[mask]]. *)
Fixpoint mask_filter {A} (mask : list bool) (l : list A) : list A :=
  match mask, l with
  | b :: ms, x :: xs => if b then x :: mask_filter ms xs else mask_filter ms xs
  | _, _ => []
  end.
Definition df_filter (df : DataFrame) (mask : list bool) : DataFrame :=
  map (fun kc => (fst kc, mask_filter mask (snd kc))) df.

Definition rbind {A B} (r : res A) (k : A -> res B) : res B :=
  match r with Ok x => k x | Err e => Err e end.

(** The data processing of [main] up to [filtered_df] (the table shown and
    written by [to_csv]); [checked band] is the value of the band's checkbox. *)
Definition main_export (data : list SoldRecord) (checked : string -> bool) : res DataFrame :=
  let df := df_of_records data in
  rbind (df_col df "Band") (fun band =>
  rbind (cells_add_str band " - ") (fun band_sep =>
  rbind (df_col df "Tour Name") (fun tour =>
  rbind (cells_add band_sep tour) (fun location =>
  let df1 := df_set df "Location" location in
  rbind (df_col df1 "Sold") (fun sold =>
  rbind (cells_neg sold) (fun qty =>
  let df2 := df_set df1 "Quantity" qty in
  let df3 := df_set df2 "Reason" (repeat (CStr "Nightly Sales") (nrows df2)) in
  rbind (df_select df3 ["SKU"; "Quantity"; "Location"; "Reason"]) (fun df4 =>
  rbind (df_insert df4 1 "Action" (CStr "Replace")) (fun df5 =>
  rbind (df_col df5 "Location") (fun loc =>
  rbind (first_segments loc) (fun segs =>
  let bands := unique_from [] segs in
  let selected_bands := List.filter checked bands in
  let mask := map (fun b => existsb (String.eqb b) selected_bands) segs in
  Ok (df_filter df5 mask))))))))))).

(* ------------------------------------------------------------------ *)
(** ** Formulas stated by the specification, to compare with the code *)

(** A numeric field with missing or null read as zero. *)
Definition val0 (f : jfield Z) : Z :=
  match f with JVal z => z | _ => 0 end.

(** The add list of a count, a missing key read as no adds. *)
Definition adds_list (count : CountNode) : list MerchAdd :=
  match merchAdds count with JVal l => l | _ => [] end.

(** [count_in + sum(add.quantity) - count_out - comps], nulls as zero. *)
Definition sold_spec (count : CountNode) : Z :=
  val0 (countIn count) + sum_Z (map (fun add => val0 (quantity add)) (adds_list count))
  - val0 (countOut count) - val0 (comps count).

(** The catalog price of a variant as a Price cell. *)
Definition catalog_price (v : MerchVariant) : PriceOut :=
  match price v with Some q => PNum q | None => PNull end.

(** Occurrences of the line "Fetching merchandise for account u", logged
    once on entry to each [fetch_merchandise u] call. *)
Definition is_merch_fetch (u : string) (e : Event) : bool :=
  match e with EvLog (LFetchingMerch u') => String.eqb u' u | _ => false end.
Definition merch_fetches (u : string) (t : list Event) : nat :=
  length (List.filter (is_merch_fetch u) t).

(** Does some show of the list belong to account [u]? *)
Definition mentions_account (u : string) (shows : list AShow) : bool :=
  existsb (fun show => String.eqb (acc_uuid (a_account show)) u) shows.

(** Cursors sent for a run of pages starting at cursor [c0]. *)
Fixpoint cursors_of {A} (c0 : option string) (pages : list (Page A)) : list (option string) :=
  match pages with
  | [] => []
  | p :: rest => c0 :: cursors_of (endCursor p) rest
  end.

(** Every page but the last reports [hasNextPage], the last does not. *)
Fixpoint ends_at_last {A} (pages : list (Page A)) : bool :=
  match pages with
  | [] => false
  | [p] => negb (hasNextPage p)
  | p :: rest => hasNextPage p && ends_at_last rest
  end.

(** The server answers the requests [k], [k+1], ... of the collector, sent with
    the cursors [cursors_of c0 pages], with status 200, no ['errors'] key and
    a payload whose page is the next one of [pages]. *)
Fixpoint serves {A} (srv : nat -> Request -> option HttpResp)
    (mkreq : option string -> Request) (extract : Payload -> res (Page A))
    (k : nat) (c0 : option string) (pages : list (Page A)) : Prop :=
  match pages with
  | [] => True
  | p :: rest =>
      (exists resp, srv k (mkreq c0) = Some resp /\ status_code resp = 200 /\
                    errors (payload resp) = None /\ extract (payload resp) = Ok p)
      /\ serves srv mkreq extract (S k) (endCursor p) rest
  end.

(** The server with every settlements list cut down to its first entry. *)
Definition first_settlement (d : Data) : Data :=
  match d with DCounts (s0 :: _) => DCounts [s0] | _ => d end.
Definition first_settlement_only (srv : nat -> Request -> option HttpResp)
    : nat -> Request -> option HttpResp :=
  fun k r =>
    option_map (fun resp =>
      mkResp (status_code resp)
             (mkPayload (first_settlement (data (payload resp))) (errors (payload resp)))
             (text resp)) (srv k r).

(* ------------------------------------------------------------------ *)
(** ** Concrete inputs *)

Definition ex_account := mkAccount "acc-1" "BandX".
Definition ex_tour := mkTour "tour-1" "TourY".
Definition ex_show := mkAShow (mkShow "show-1" "2024-06-01" (mkLocation "Austin" "TX" "US"))
                              ex_account ex_tour.
Definition ex_variant_a := mkVariant "A1" "M" "var-a" (Some 2500).
Definition ex_variant_b := mkVariant "B2" "L" "var-b" None.
Definition ex_item := mkItem "Tee" "apparel" "item-1" [ex_variant_a; ex_variant_b].

(** count_in=10, count_out=None, comps=2, adds=[]. *)
Definition ex_count := mkCount "var-a" None (JVal 10) JNull (JVal 2) (JVal []).
(** The same count with a null [merchAdds]. *)
Definition ex_count_null_adds := mkCount "var-a" None (JVal 10) JNull (JVal 2) JNull.
(** A count of "var-a" with a zero price override. *)
Definition ex_count_zero_override := mkCount "var-a" (Some 0) (JVal 4) (JVal 1) (JVal 0) (JVal []).
(** A count whose variant is not in the catalog. *)
Definition ex_count_unknown := mkCount "var-zzz" (Some 900) (JVal 3) JNull JNull JMissing.
(** A count whose variant is not in the catalog, with a null [merchAdds]. *)
Definition ex_count_unknown_null_adds := mkCount "var-zzz" None (JVal 1) JNull JNull JNull.

Definition ok_resp (d : Data) : option HttpResp := Some (mkResp 200 (mkPayload d None) "").

(** A server whose counts answer for a show has an empty settlements list. *)
Definition srv_no_settlements (k : nat) (r : Request) : option HttpResp :=
  ok_resp (DCounts []).

(** A 200 response carrying an empty ['errors'] list, and a 201 response. *)
Definition srv_empty_errors (k : nat) (r : Request) : option HttpResp :=
  Some (mkResp 200 (mkPayload (DAccounts (mkPage [] false None)) (Some [])) "").
Definition srv_created (k : nat) (r : Request) : option HttpResp :=
  Some (mkResp 201 (mkPayload (DAccounts (mkPage [] false None)) None) "").

(** A three-page account listing, served in order. *)
Definition ex_page (n : nat) : Page Account :=
  match n with
  | O => mkPage [mkAccount "acc-1" "BandX"] true (Some "cur-1")
  | 1%nat => mkPage [mkAccount "acc-2" "BandY"] true (Some "cur-2")
  | _ => mkPage [mkAccount "acc-3" "BandZ"] false None
  end.
Definition srv_three_pages (k : nat) (r : Request) : option HttpResp :=
  ok_resp (DAccounts (ex_page k)).

(** A show with two settlements, one count each. *)
Definition srv_two_settlements (k : nat) (r : Request) : option HttpResp :=
  ok_resp (DCounts [mkSettlement "s-1" (mkPage [ex_count] false None);
                    mkSettlement "s-2" (mkPage [ex_count_unknown] false None)]).

(** A show whose only settlement has no counts. *)
Definition srv_empty_settlement (k : nat) (r : Request) : option HttpResp :=
  ok_resp (DCounts [mkSettlement "s-1" (mkPage [] false None)]).

(** Two shows of the same account, and a server for their counts and catalog. *)
Definition ex_two_shows : list AShow :=
  [ex_show;
   mkAShow (mkShow "show-2" "2024-06-02" (mkLocation "Dallas" "TX" "US")) ex_account ex_tour].
Definition srv_catalog (k : nat) (r : Request) : option HttpResp :=
  match rq_query r with
  | QMerch => ok_resp (DMerch (mkPage [ex_item] false None))
  | _ => ok_resp (DCounts [mkSettlement "s-1" (mkPage [ex_count; ex_count_unknown] false None)])
  end.

(** Bound on the number of "Fetching merchandise for account u" lines a
    computation appends to the trace, which it only extends. *)
Definition at_most_merch_fetches (u : string) {A} (m : M A) (n : nat) : Prop :=
  forall s, exists new, trace (fst (m s)) = trace s ++ new /\ (merch_fetches u new <= n)%nat.

(* ------------------------------------------------------------------ *)
(** ** The log area: [StreamlitHandler] on the module logger *)

(** A log record: level number (DEBUG 10, INFO 20, ERROR 40), level name,
    time stamp and message. *)
Record LogRecord := mkRecord {
  levelno : Z;
  levelname : string;
  asctime : string;
  message : string
}.

(** [logging.Formatter('%(asctime)s - %(levelname)s - %(message)s')]. *)
Definition format (record : LogRecord) : string :=
  (asctime record ++ " - " ++ levelname record ++ " - " ++ message record)%string.

(** The [st.empty()] placeholder: the text it displays, if any. *)
Definition Placeholder := option string.

Definition placeholder_empty (ph : Placeholder) : Placeholder := None.
Definition placeholder_text (entry : string) (ph : Placeholder) : Placeholder := Some entry.

(** [StreamlitHandler.emit]. *)
Definition emit (record : LogRecord) (ph : Placeholder) : Placeholder :=
  let log_entry := format record in
  placeholder_text log_entry (placeholder_empty ph).

(** [logger.setLevel(logging.INFO)]: a record below INFO reaches no handler. *)
Definition logger_handle (record : LogRecord) (ph : Placeholder) : Placeholder :=
  if Z.leb 20 (levelno record) then emit record ph else ph.

(** The placeholder after the logger has handled [records], in order. *)
Definition run_logger (records : list LogRecord) (ph : Placeholder) : Placeholder :=
  fold_left (fun ph record => logger_handle record ph) records ph.

(* ------------------------------------------------------------------ *)
(** ** Further observations on runs *)

(** The cursor a collector sends after the pages [pages], started at [c0]. *)
Fixpoint next_cursor {A} (c0 : option string) (pages : list (Page A)) : option string :=
  match pages with
  | [] => c0
  | p :: rest => next_cursor (endCursor p) rest
  end.

(** The [if merch_item:] test of [fetch_all_data] for a count. *)
Definition matched (merchandise : list MerchItem) (count : CountNode) : bool :=
  match find_merch_item merchandise (merchVariantUuid count) with
  | Some _ => true
  | None => false
  end.

(** The events a computation appends to the trace all satisfy [P]. *)
Definition only_events (P : Event -> Prop) {A} (m : M A) : Prop :=
  forall s, exists new, trace (fst (m s)) = trace s ++ new /\ Forall P new.

(** A shows query carries the date range [start_date], [end_date]. *)
Definition shows_dates (start_date end_date : string) (e : Event) : Prop :=
  match e with
  | EvQuery r =>
      rq_query r = QShows ->
      exists t c, rq_vars r = [("tourUuid", Some t); ("startDate", Some start_date);
                               ("endDate", Some end_date); ("cursor", c)]
  | EvLog _ => True
  end.

(** A server that serves one page of accounts, then answers 500. *)
Definition srv_fail_second (k : nat) (r : Request) : option HttpResp :=
  match k with
  | O => ok_resp (DAccounts (ex_page 0))
  | S _ => Some (mkResp 500 (mkPayload (DAccounts (mkPage [] false None)) None) "boom")
  end.

(** A server whose every page announces a next page. *)
Definition srv_endless (k : nat) (r : Request) : option HttpResp :=
  ok_resp (DAccounts (mkPage [ex_account] true (Some "cur"))).

(** One account with one tour with one show. *)
Definition srv_tree (k : nat) (r : Request) : option HttpResp :=
  match rq_query r with
  | QAccounts => ok_resp (DAccounts (mkPage [ex_account] false None))
  | QTours => ok_resp (DTours (mkPage [ex_tour] false None))
  | QShows => ok_resp (DShows (mkPage [a_show ex_show] false None))
  | QMerch => ok_resp (DMerch (mkPage [ex_item] false None))
  | QCounts => ok_resp (DCounts [mkSettlement "s-1" (mkPage [ex_count] false None)])
  end.

(* ================================================================== *)
(** * Properties *)

Lemma or0_py_get (f : jfield Z) : or0 (py_get f 0) = val0 f.
Proof.
  destruct f as [| |z]; simpl; try reflexivity.
  destruct (Z.eqb_spec z 0); subst; reflexivity.
Qed.

(** C1 (code bug). [calculate_sold] returns
    count_in + sum of add quantities - count_out - comps, each of countIn,
    countOut, comps and each add's quantity read as zero when missing or null,
    for every count whose [merchAdds] is missing or a list. A null [merchAdds]
    is not read as no adds: [count.get('merchAdds', [])] only covers a missing
    key, unlike the [.get(k, 0) or 0] reads of the other fields. *)
Theorem calculate_sold_formula (count : CountNode) :
  merchAdds count <> JNull ->
  calculate_sold count = Ok (sold_spec count).
Proof.
  intros Hadds. unfold calculate_sold, sold_spec, adds_list.
  rewrite !or0_py_get.
  destruct (merchAdds count) as [| |l]; [| contradiction |]; simpl.
  - f_equal; lia.
  - f_equal. rewrite (map_ext _ _ (fun a => or0_py_get (quantity a))). reflexivity.
Qed.

Lemma calculate_sold_formula_witness :
  merchAdds ex_count <> JNull /\ calculate_sold ex_count = Ok 8.
Proof.
  split; [discriminate |].
  rewrite (calculate_sold_formula ex_count) by discriminate.
  reflexivity.
Defined.

(** C1 failing input: the count of the claim's example with a null
    [merchAdds] gets no sold value at all: [calculate_sold] raises
    [TypeError] where the claim expects 8. *)
Lemma calculate_sold_null_adds_raises :
  calculate_sold ex_count_null_adds = Err TypeError /\
  (forall z, calculate_sold ex_count_null_adds <> Ok z).
Proof. split; [reflexivity | intros z; discriminate]. Qed.

(** ** The join of counts against the merchandise catalog *)

Lemma matching_items_nil (merchandise : list MerchItem) (u : string) :
  (forall item, In item merchandise ->
     forall v, In v (merchVariants item) -> var_uuid v <> u) ->
  matching_items merchandise u = [].
Proof.
  induction merchandise as [|item rest IH]; intros Hno; simpl; [reflexivity|].
  rewrite IH by (intros i Hi; apply Hno; right; exact Hi).
  assert (Hf : List.filter (fun variant => String.eqb (var_uuid variant) u) (merchVariants item) = []).
  { pose proof (Hno item (or_introl eq_refl)) as Hitem.
    induction (merchVariants item) as [|v vs IHvs]; simpl; [reflexivity|].
    rewrite (proj2 (String.eqb_neq _ _) (Hitem v (or_introl eq_refl))).
    apply IHvs. intros w Hw. apply Hitem. right. exact Hw. }
  rewrite Hf. reflexivity.
Qed.

Lemma find_merch_item_some (merchandise : list MerchItem) (u : string) (item : MerchItem) :
  find_merch_item merchandise u = Some item ->
  In item merchandise /\ exists v, In v (merchVariants item) /\ var_uuid v = u.
Proof.
  unfold find_merch_item.
  induction merchandise as [|i rest IH]; simpl; [discriminate|].
  destruct (List.filter (fun variant => String.eqb (var_uuid variant) u) (merchVariants i))
    as [|v vs] eqn:Hf; simpl.
  - intros H. destruct (IH H) as [Hin Hv]. split; [right; exact Hin | exact Hv].
  - intros H. injection H as <-. split; [left; reflexivity|].
    assert (Hv : In v (List.filter (fun variant => String.eqb (var_uuid variant) u) (merchVariants i)))
      by (rewrite Hf; left; reflexivity).
    apply filter_In in Hv. destruct Hv as [Hv Heq].
    exists v. split; [exact Hv | apply String.eqb_eq; exact Heq].
Qed.

Lemma find_variant_some (item : MerchItem) (u : string) :
  (exists v, In v (merchVariants item) /\ var_uuid v = u) ->
  exists v, find_variant item u = Some v /\ In v (merchVariants item) /\ var_uuid v = u.
Proof.
  intros [v [Hin Hu]]. unfold find_variant.
  destruct (find (fun v => String.eqb (var_uuid v) u) (merchVariants item)) as [w|] eqn:Hfind.
  - apply find_some in Hfind. destruct Hfind as [Hw Heq].
    exists w. repeat split; [exact Hw | apply String.eqb_eq; exact Heq].
  - exfalso. apply (find_none _ _ Hfind) in Hin.
    rewrite Hu, String.eqb_refl in Hin. discriminate.
Qed.

(** What an emitted record is made of: the matched item and variant. *)
Lemma emit_count_some (show : AShow) (merchandise : list MerchItem) (count : CountNode)
    (r : SoldRecord) :
  emit_count show merchandise count = Ok (Some r) ->
  exists item v,
    find_merch_item merchandise (merchVariantUuid count) = Some item /\
    find_variant item (merchVariantUuid count) = Some v /\
    In item merchandise /\ In v (merchVariants item) /\
    var_uuid v = merchVariantUuid count /\
    calculate_sold count = Ok (Sold r) /\
    Size r = size v /\ SKU r = sku v /\ Price r = price_cell count (Some v).
Proof.
  unfold emit_count.
  destruct (find_merch_item merchandise (merchVariantUuid count)) as [item|] eqn:Hitem;
    [| discriminate].
  destruct (find_merch_item_some _ _ _ Hitem) as [Hin Hex].
  destruct (find_variant_some item _ Hex) as [v [Hv [Hvin Hvu]]].
  rewrite Hv.
  destruct (calculate_sold count) as [sold|e] eqn:Hsold; [| discriminate].
  intros H. injection H as <-.
  exists item, v. simpl. repeat split; assumption.
Qed.

Lemma join_counts_app (show : AShow) (merchandise : list MerchItem) (l1 l2 : list CountNode) :
  join_counts show merchandise (l1 ++ l2) =
  rbind (join_counts show merchandise l1) (fun a =>
  rbind (join_counts show merchandise l2) (fun b => Ok (a ++ b))).
Proof.
  induction l1 as [|c l1 IH]; simpl.
  - destruct (join_counts show merchandise l2); reflexivity.
  - destruct (emit_count show merchandise c) as [o|e]; [| reflexivity].
    rewrite IH.
    destruct (join_counts show merchandise l1) as [a|e]; simpl; [| reflexivity].
    destruct (join_counts show merchandise l2) as [b|e]; simpl; [| reflexivity].
    rewrite app_assoc. reflexivity.
Qed.

(** C3 (confirmed). A count whose [merchVariantUuid] matches no variant of
    the account's merchandise yields no record and no error, and removing it
    from the show's counts changes nothing: the other counts are processed
    exactly as without it. *)
Theorem unmatched_count_dropped (show : AShow) (merchandise : list MerchItem)
    (count : CountNode) (pre post : list CountNode) :
  (forall item, In item merchandise ->
     forall v, In v (merchVariants item) -> var_uuid v <> merchVariantUuid count) ->
  emit_count show merchandise count = Ok None /\
  join_counts show merchandise (pre ++ count :: post) =
  join_counts show merchandise (pre ++ post).
Proof.
  intros Hno.
  assert (Hemit : emit_count show merchandise count = Ok None).
  { unfold emit_count, find_merch_item. rewrite (matching_items_nil _ _ Hno). reflexivity. }
  split; [exact Hemit|].
  rewrite !join_counts_app. simpl. rewrite Hemit.
  destruct (join_counts show merchandise post); reflexivity.
Qed.

Lemma unmatched_count_dropped_witness :
  emit_count ex_show [ex_item] ex_count_unknown = Ok None /\
  join_counts ex_show [ex_item] ([ex_count] ++ ex_count_unknown :: []) =
  join_counts ex_show [ex_item] ([ex_count] ++ []).
Proof.
  apply unmatched_count_dropped.
  intros item Hitem v Hv. simpl in Hitem.
  destruct Hitem as [<- | []]. simpl in Hv.
  destruct Hv as [<- | [<- | []]]; discriminate.
Defined.

(** C5 (corrected). For every emitted record, the Price field is the count's
    priceOverride when that override is non-null and non-zero; when it is
    null or zero, the Price is the matched variant's catalog price. The
    'N/A' sentinel is never emitted. *)
Theorem emitted_price (show : AShow) (merchandise : list MerchItem) (count : CountNode)
    (r : SoldRecord) :
  emit_count show merchandise count = Ok (Some r) ->
  exists v, In v (flat_map merchVariants merchandise) /\
    var_uuid v = merchVariantUuid count /\
    (forall p, priceOverride count = Some p -> p <> 0 -> Price r = PNum p) /\
    ((priceOverride count = None \/ priceOverride count = Some 0) ->
       Price r = catalog_price v) /\
    Price r <> PNA.
Proof.
  intros H.
  destruct (emit_count_some _ _ _ _ H)
    as (item & v & _ & _ & Hin & Hvin & Hvu & _ & _ & _ & Hprice).
  exists v. split; [apply in_flat_map; exists item; split; assumption|].
  split; [exact Hvu|].
  rewrite Hprice. unfold price_cell, catalog_price.
  split; [| split].
  - intros p Hp Hnz. rewrite Hp.
    destruct (Z.eqb_spec p 0); [contradiction | reflexivity].
  - intros [Hp | Hp]; rewrite Hp; reflexivity.
  - destruct (priceOverride count) as [p|];
      [destruct (Z.eqb p 0)|]; destruct (price v); discriminate.
Qed.

Lemma emitted_price_witness :
  emit_count ex_show [ex_item] ex_count = Ok (Some (mkSold "BandX" "TourY" "Austin, TX, US"
    "Tee" "M" "A1" 10 0 8 "2024-06-01" (PNum 2500))) /\
  exists v, In v (flat_map merchVariants [ex_item]) /\
    var_uuid v = merchVariantUuid ex_count /\
    (forall p, priceOverride ex_count = Some p -> p <> 0 ->
       Price (mkSold "BandX" "TourY" "Austin, TX, US" "Tee" "M" "A1" 10 0 8 "2024-06-01"
                (PNum 2500)) = PNum p) /\
    ((priceOverride ex_count = None \/ priceOverride ex_count = Some 0) ->
       Price (mkSold "BandX" "TourY" "Austin, TX, US" "Tee" "M" "A1" 10 0 8 "2024-06-01"
                (PNum 2500)) = catalog_price v) /\
    Price (mkSold "BandX" "TourY" "Austin, TX, US" "Tee" "M" "A1" 10 0 8 "2024-06-01"
             (PNum 2500)) <> PNA.
Proof.
  split; [vm_compute; reflexivity|].
  apply (emitted_price ex_show [ex_item] ex_count). vm_compute. reflexivity.
Defined.

(** C5 counterexample: a count with a present, non-null override of 0 gets
    the catalog price 2500, not its override. *)
Lemma zero_override_replaced :
  match emit_count ex_show [ex_item] ex_count_zero_override with
  | Ok (Some r) => priceOverride ex_count_zero_override = Some 0 /\
                   Price r = PNum 2500 /\ Price r <> PNum 0
  | _ => False
  end.
Proof. vm_compute. split; [reflexivity | split; [reflexivity | discriminate]]. Qed.

(** C10 (confirmed). The variant lookup inside the selected merch item
    always succeeds, so emitted records never carry the 'N/A' fallbacks:
    their Size and SKU are those of a catalog variant with the count's uuid,
    and their Price is not 'N/A'. *)
Theorem variant_lookup_total :
  (forall (merchandise : list MerchItem) (u : string) (item : MerchItem),
     find_merch_item merchandise u = Some item ->
     exists v, find_variant item u = Some v) /\
  (forall (show : AShow) (merchandise : list MerchItem) (count : CountNode) (r : SoldRecord),
     emit_count show merchandise count = Ok (Some r) ->
     Price r <> PNA /\
     exists item v, In item merchandise /\ In v (merchVariants item) /\
       var_uuid v = merchVariantUuid count /\ Size r = size v /\ SKU r = sku v).
Proof.
  split.
  - intros merchandise u item H.
    destruct (find_merch_item_some _ _ _ H) as [_ Hex].
    destruct (find_variant_some item u Hex) as [v [Hv _]]. exists v. exact Hv.
  - intros show merchandise count r H.
    destruct (emit_count_some _ _ _ _ H)
      as (item & v & _ & _ & Hin & Hvin & Hvu & _ & Hsize & Hsku & Hprice).
    split.
    + rewrite Hprice. unfold price_cell.
      destruct (priceOverride count) as [p|];
        [destruct (Z.eqb p 0)|]; destruct (price v); discriminate.
    + exists item, v. repeat split; assumption.
Qed.

Lemma variant_lookup_total_witness :
  find_merch_item [ex_item] "var-b" = Some ex_item /\
  exists v, find_variant ex_item "var-b" = Some v.
Proof.
  split; [reflexivity|].
  apply (proj1 variant_lookup_total [ex_item] "var-b" ex_item). reflexivity.
Defined.

(** ** The API client *)

(** C6 (corrected). [execute_query] sends the request once and logs it; it
    raises a connection error when the POST does not complete, a status
    failure exactly when the HTTP status is not 200, a GraphQL failure when
    the status is 200 and the payload has an ['errors'] key (even an empty
    list), and otherwise returns the parsed payload unmodified. *)
Theorem execute_query_outcomes (srv : nat -> Request -> option HttpResp) (r : Request) (s : St) :
  fst (execute_query srv r s) = mkSt (S (nreq s)) (trace s ++ [EvQuery r]) /\
  (srv (nreq s) r = None -> snd (execute_query srv r s) = Err ConnectionError) /\
  (forall resp, srv (nreq s) r = Some resp -> status_code resp <> 200 ->
     snd (execute_query srv r s) = Err (StatusFailed (status_code resp) (text resp))) /\
  (forall resp es, srv (nreq s) r = Some resp -> status_code resp = 200 ->
     errors (payload resp) = Some es ->
     snd (execute_query srv r s) = Err (GraphQLFailed es)) /\
  (forall resp, srv (nreq s) r = Some resp -> status_code resp = 200 ->
     errors (payload resp) = None ->
     snd (execute_query srv r s) = Ok (payload resp)).
Proof.
  unfold execute_query.
  split; [destruct (srv (nreq s) r) as [resp|];
          [destruct (Z.eqb (status_code resp) 200); [destruct (errors (payload resp))|]|];
          reflexivity|].
  split; [intros H; rewrite H; reflexivity|].
  split; [intros resp H Hst; rewrite H; apply Z.eqb_neq in Hst; rewrite Hst; reflexivity|].
  split; [intros resp es H Hst He; rewrite H, Hst, He; reflexivity|].
  intros resp H Hst He; rewrite H, Hst, He; reflexivity.
Qed.

Lemma execute_query_outcomes_witness :
  srv_three_pages 0 (accounts_req None) = ok_resp (DAccounts (ex_page 0)) /\
  snd (execute_query srv_three_pages (accounts_req None) (mkSt 0 [])) =
    Ok (mkPayload (DAccounts (ex_page 0)) None).
Proof.
  split; [reflexivity|].
  destruct (execute_query_outcomes srv_three_pages (accounts_req None) (mkSt 0 []))
    as (_ & _ & _ & _ & Hok).
  apply (Hok (mkResp 200 (mkPayload (DAccounts (ex_page 0)) None) "")); reflexivity.
Defined.

(** C6 counterexample: a 200 response whose error list is empty raises, and so
    does a 201 (success) response. *)
Lemma empty_error_list_raises :
  snd (execute_query srv_empty_errors (accounts_req None) (mkSt 0 [])) = Err (GraphQLFailed []) /\
  snd (execute_query srv_created (accounts_req None) (mkSt 0 [])) = Err (StatusFailed 201 "").
Proof. split; reflexivity. Qed.

(** ** Pagination *)

Lemma cursors_of_length {A} (c0 : option string) (pages : list (Page A)) :
  length (cursors_of c0 pages) = length pages.
Proof.
  revert c0. induction pages as [|p rest IH]; intros c0; simpl; [reflexivity|].
  rewrite IH. reflexivity.
Qed.

Lemma cursors_of_endCursor {A} (c0 : option string) (p : Page A) (rest : list (Page A)) :
  cursors_of c0 (p :: rest) = c0 :: map endCursor (removelast (p :: rest)).
Proof.
  revert c0 p. induction rest as [|q rest IH]; intros c0 p; [reflexivity|].
  change (cursors_of c0 (p :: q :: rest)) with (c0 :: cursors_of (endCursor p) (q :: rest)).
  rewrite IH. reflexivity.
Qed.

(** The pagination loop against a server that serves [pages]: one request per
    page, with the cursors [cursors_of c0 pages], and the nodes of every page
    appended in order. *)
Lemma paginate_spec {A} (srv : nat -> Request -> option HttpResp)
    (mkreq : option string -> Request) (extract : Payload -> res (Page A))
    (pages : list (Page A)) :
  forall fuel c0 acc s,
  serves srv mkreq extract (nreq s) c0 pages ->
  ends_at_last pages = true ->
  (length pages <= fuel)%nat ->
  paginate srv mkreq extract fuel c0 acc s =
    (mkSt (nreq s + length pages)
          (trace s ++ map (fun c => EvQuery (mkreq c)) (cursors_of c0 pages)),
     Ok (acc ++ concat (map nodes pages))).
Proof.
  induction pages as [|p rest IH]; intros fuel c0 acc s Hserve Hends Hfuel;
    [discriminate|].
  destruct Hserve as [(resp & Hsrv & Hst & Herr & Hext) Hrest].
  destruct fuel as [|fuel]; [simpl in Hfuel; lia|].
  simpl paginate. unfold bind, execute_query at 1.
  rewrite Hsrv, Hst, Herr. simpl. rewrite Hext. simpl.
  destruct rest as [|q rest'].
  - simpl in Hends. rewrite Hends. simpl.
    rewrite Nat.add_1_r, app_nil_r. reflexivity.
  - change (ends_at_last (p :: q :: rest')) with (hasNextPage p && ends_at_last (q :: rest'))
      in Hends.
    apply andb_true_iff in Hends. destruct Hends as [Hnext Hends].
    rewrite Hnext. simpl.
    rewrite (IH fuel (endCursor p) (acc ++ nodes p)
               (mkSt (S (nreq s)) (trace s ++ [EvQuery (mkreq c0)])) Hrest Hends)
      by (simpl in Hfuel |- *; lia).
    simpl. f_equal; [f_equal|].
    + lia.
    + rewrite <- app_assoc. reflexivity.
    + f_equal. rewrite <- app_assoc. reflexivity.
Qed.

(** C2 (confirmed). Each collector is [paginate] started at cursor [None]
    with an empty accumulator (fetch_accounts, fetch_tours, fetch_shows
    directly; fetch_merchandise and fetch_counts between two log lines). For
    every sequence of pages the server serves in which every page but the
    last reports hasNextPage and the last does not, the collector returns the
    concatenation of the pages' nodes in order, issues exactly one request per
    page, sends the first request with cursor [None] and each next one with
    the previous page's endCursor, and stops right after the last page. *)
Theorem paginate_collects_pages {A} (srv : nat -> Request -> option HttpResp)
    (mkreq : option string -> Request) (extract : Payload -> res (Page A))
    (pages : list (Page A)) (fuel : nat) (s : St) :
  serves srv mkreq extract (nreq s) None pages ->
  ends_at_last pages = true ->
  (length pages <= fuel)%nat ->
  paginate srv mkreq extract fuel None [] s =
    (mkSt (nreq s + length pages)
          (trace s ++ map (fun c => EvQuery (mkreq c)) (cursors_of None pages)),
     Ok (concat (map nodes pages))) /\
  length (cursors_of None pages) = length pages /\
  cursors_of None pages = None :: map endCursor (removelast pages).
Proof.
  intros Hserve Hends Hfuel.
  split; [apply (paginate_spec srv mkreq extract pages fuel None [] s Hserve Hends Hfuel)|].
  split; [apply cursors_of_length|].
  destruct pages as [|p rest]; [discriminate | apply cursors_of_endCursor].
Qed.

Lemma paginate_collects_pages_witness :
  serves srv_three_pages accounts_req accounts_page 0 None [ex_page 0; ex_page 1; ex_page 2] /\
  fetch_accounts srv_three_pages 3 (mkSt 0 []) =
    (mkSt 3 [EvQuery (accounts_req None); EvQuery (accounts_req (Some "cur-1"));
             EvQuery (accounts_req (Some "cur-2"))],
     Ok [mkAccount "acc-1" "BandX"; mkAccount "acc-2" "BandY"; mkAccount "acc-3" "BandZ"]).
Proof.
  assert (Hs : serves srv_three_pages accounts_req accounts_page 0 None
                 [ex_page 0; ex_page 1; ex_page 2]).
  { simpl. repeat split; eexists; repeat split; reflexivity. }
  split; [exact Hs|].
  unfold fetch_accounts.
  exact (proj1 (paginate_collects_pages srv_three_pages accounts_req accounts_page
                  [ex_page 0; ex_page 1; ex_page 2] 3 (mkSt 0 []) Hs eq_refl (le_n 3))).
Defined.

(** ** Counts: the first settlement only *)

Lemma execute_query_first_settlement (srv : nat -> Request -> option HttpResp)
    (r : Request) (s : St) :
  execute_query (first_settlement_only srv) r s =
  match execute_query srv r s with
  | (s', Ok p) => (s', Ok (mkPayload (first_settlement (data p)) (errors p)))
  | other => other
  end.
Proof.
  unfold execute_query, first_settlement_only.
  destruct (srv (nreq s) r) as [resp|]; simpl; [|reflexivity].
  destruct (Z.eqb (status_code resp) 200); [|reflexivity].
  destruct (errors (payload resp)) eqn:E; simpl; rewrite ?E; reflexivity.
Qed.

Lemma counts_page_first_settlement (d : Data) (errs : option (list string)) (p : Payload) :
  counts_page (mkPayload (first_settlement d) errs) = counts_page (mkPayload d errs).
Proof. destruct d as [| | | |[|s0 rest]]; reflexivity. Qed.

Lemma paginate_counts_first_settlement (srv : nat -> Request -> option HttpResp) (u : string) :
  forall fuel cursor acc s,
  paginate (first_settlement_only srv) (counts_req u) counts_page fuel cursor acc s =
  paginate srv (counts_req u) counts_page fuel cursor acc s.
Proof.
  induction fuel as [|fuel IH]; intros cursor acc s; [reflexivity|].
  simpl. unfold bind at 1 3. rewrite execute_query_first_settlement.
  destruct (execute_query srv (counts_req u cursor) s) as [s' [p|e]]; [|reflexivity].
  unfold lift, bind.
  replace (counts_page (mkPayload (first_settlement (data p)) (errors p)))
    with (counts_page p)
    by (destruct p as [d errs]; symmetry; exact (counts_page_first_settlement d errs (mkPayload d errs))).
  destruct (counts_page p) as [page|e]; [|reflexivity].
  destruct (negb (hasNextPage page)); [reflexivity|]. apply IH.
Qed.

(** C4 (confirmed). [fetch_counts] reads only the first settlement of each
    answer: it returns exactly what it returns against the same server with
    every settlements list cut down to its first entry, so counts of the
    second and later settlements never reach the output. *)
Theorem fetch_counts_first_settlement (srv : nat -> Request -> option HttpResp)
    (fuel : nat) (show_uuid : string) (s : St) :
  fetch_counts (first_settlement_only srv) fuel show_uuid s = fetch_counts srv fuel show_uuid s.
Proof.
  unfold fetch_counts, bind. simpl.
  rewrite paginate_counts_first_settlement. reflexivity.
Qed.

Example fetch_counts_two_settlements :
  snd (fetch_counts srv_two_settlements 5 "show-1" (mkSt 0 [])) = Ok [ex_count].
Proof. reflexivity. Qed.

(** ** Collectors with no children *)

(** A collector whose first page is empty and final returns [[]] after one
    request. *)
Lemma paginate_empty {A} (srv : nat -> Request -> option HttpResp)
    (mkreq : option string -> Request) (extract : Payload -> res (Page A))
    (fuel : nat) (s : St) (resp : HttpResp) (c : option string) :
  (1 <= fuel)%nat ->
  srv (nreq s) (mkreq None) = Some resp -> status_code resp = 200 ->
  errors (payload resp) = None -> extract (payload resp) = Ok (mkPage [] false c) ->
  paginate srv mkreq extract fuel None [] s =
    (mkSt (S (nreq s)) (trace s ++ [EvQuery (mkreq None)]), Ok []).
Proof.
  intros Hfuel Hsrv Hst Herr Hext.
  rewrite (paginate_spec srv mkreq extract [mkPage [] false c] fuel None [] s);
    [| simpl; split; [exists resp; repeat split; assumption | exact I] | reflexivity | exact Hfuel].
  simpl. rewrite Nat.add_1_r. reflexivity.
Qed.

(** A page the collector cannot read aborts it after one request. *)
Lemma paginate_extract_err {A} (srv : nat -> Request -> option HttpResp)
    (mkreq : option string -> Request) (extract : Payload -> res (Page A))
    (fuel : nat) (c : option string) (acc : list A) (s : St) (resp : HttpResp) (e : error) :
  srv (nreq s) (mkreq c) = Some resp -> status_code resp = 200 ->
  errors (payload resp) = None -> extract (payload resp) = Err e ->
  paginate srv mkreq extract (S fuel) c acc s =
    (mkSt (S (nreq s)) (trace s ++ [EvQuery (mkreq c)]), Err e).
Proof.
  intros Hsrv Hst Herr Hext. simpl. unfold bind, execute_query.
  rewrite Hsrv, Hst, Herr. simpl. rewrite Hext. reflexivity.
Qed.

(** C7 (corrected). Every collector whose first page has no nodes and no next
    page returns an empty sequence without error; for [fetch_counts] this is
    the case of a show whose first settlement has no counts. A show whose
    settlements list is empty makes [fetch_counts] raise [IndexError]. *)
Theorem empty_children (srv : nat -> Request -> option HttpResp) (fuel : nat) (s : St)
    (resp : HttpResp) :
  (1 <= fuel)%nat -> status_code resp = 200 -> errors (payload resp) = None ->
  (forall A (mkreq : option string -> Request) (extract : Payload -> res (Page A)) c,
     srv (nreq s) (mkreq None) = Some resp ->
     extract (payload resp) = Ok (mkPage [] false c) ->
     snd (paginate srv mkreq extract fuel None [] s) = Ok []) /\
  (forall show_uuid path c rest,
     srv (nreq s) (counts_req show_uuid None) = Some resp ->
     data (payload resp) = DCounts (mkSettlement path (mkPage [] false c) :: rest) ->
     snd (fetch_counts srv fuel show_uuid s) = Ok []) /\
  (forall show_uuid,
     srv (nreq s) (counts_req show_uuid None) = Some resp ->
     data (payload resp) = DCounts [] ->
     snd (fetch_counts srv fuel show_uuid s) = Err IndexError).
Proof.
  intros Hfuel Hst Herr.
  split; [|split].
  - intros A mkreq extract c Hsrv Hext.
    rewrite (paginate_empty srv mkreq extract fuel s resp c Hfuel Hsrv Hst Herr Hext).
    reflexivity.
  - intros show_uuid path c rest Hsrv Hdata.
    unfold fetch_counts, bind. simpl.
    assert (Hext : counts_page (payload resp) = Ok (mkPage [] false c))
      by (unfold counts_page; rewrite Hdata; reflexivity).
    rewrite (paginate_empty srv (counts_req show_uuid) counts_page fuel
               (mkSt (nreq s) (trace s ++ [EvLog (LFetchingCounts show_uuid)])) resp c
               Hfuel Hsrv Hst Herr Hext).
    reflexivity.
  - intros show_uuid Hsrv Hdata.
    destruct fuel as [|fuel]; [lia|].
    assert (Hext : counts_page (payload resp) = Err IndexError)
      by (unfold counts_page; rewrite Hdata; reflexivity).
    unfold fetch_counts. cbv [bind log].
    rewrite (paginate_extract_err srv (counts_req show_uuid) counts_page fuel None []
               (mkSt (nreq s) (trace s ++ [EvLog (LFetchingCounts show_uuid)])) resp IndexError
               Hsrv Hst Herr Hext).
    reflexivity.
Qed.

Lemma empty_children_witness :
  srv_empty_settlement 0 (counts_req "show-1" None) =
    Some (mkResp 200 (mkPayload (DCounts [mkSettlement "s-1" (mkPage [] false None)]) None) "") /\
  snd (fetch_counts srv_empty_settlement 3 "show-1" (mkSt 0 [])) = Ok [].
Proof.
  split; [reflexivity|].
  destruct (empty_children srv_empty_settlement 3 (mkSt 0 [])
              (mkResp 200 (mkPayload (DCounts [mkSettlement "s-1" (mkPage [] false None)]) None) "")
              ltac:(lia) eq_refl eq_refl) as (_ & Hcounts & _).
  apply (Hcounts "show-1" "s-1" None []); reflexivity.
Defined.

(** C7 counterexample: a show with an empty settlements list makes
    [fetch_counts] raise [IndexError] instead of returning [[]]. *)
Lemma no_settlements_raises :
  snd (fetch_counts srv_no_settlements 5 "show-1" (mkSt 0 [])) = Err IndexError /\
  snd (fetch_counts srv_no_settlements 5 "show-1" (mkSt 0 [])) <> Ok [].
Proof. split; [reflexivity | discriminate]. Qed.

(** ** Merchandise cache *)

Create HintDb merch_log.

Section MerchLog.
Variable u : string.

Lemma merch_fetches_app (t1 t2 : list Event) :
  merch_fetches u (t1 ++ t2) = (merch_fetches u t1 + merch_fetches u t2)%nat.
Proof. unfold merch_fetches. rewrite List.filter_app, length_app. reflexivity. Qed.

Lemma at_most_ret {A} (x : A) : at_most_merch_fetches u (ret x) 0.
Proof. intros s. exists []. rewrite app_nil_r. split; [reflexivity | unfold merch_fetches; simpl; lia]. Qed.

Lemma at_most_raise {A} (e : error) : at_most_merch_fetches u (@raise A e) 0.
Proof. intros s. exists []. rewrite app_nil_r. split; [reflexivity | unfold merch_fetches; simpl; lia]. Qed.

Lemma at_most_lift {A} (r : res A) : at_most_merch_fetches u (lift r) 0.
Proof. intros s. exists []. rewrite app_nil_r. split; [reflexivity | unfold merch_fetches; simpl; lia]. Qed.

Lemma at_most_log (l : LogLine) :
  is_merch_fetch u (EvLog l) = false -> at_most_merch_fetches u (log l) 0.
Proof.
  intros Hl s. exists [EvLog l]. split; [reflexivity|].
  unfold merch_fetches. cbn [List.filter]. rewrite Hl. simpl. lia.
Qed.

Lemma at_most_bind {A B} (m : M A) (k : A -> M B) (n1 n2 : nat) :
  at_most_merch_fetches u m n1 -> (forall x, at_most_merch_fetches u (k x) n2) ->
  at_most_merch_fetches u (bind m k) (n1 + n2).
Proof.
  intros Hm Hk s. unfold bind.
  destruct (Hm s) as (new1 & Ht1 & Hn1).
  destruct (m s) as [s1 [x|e]]; simpl in *.
  - destruct (Hk x s1) as (new2 & Ht2 & Hn2).
    exists (new1 ++ new2). rewrite Ht2, Ht1, app_assoc, merch_fetches_app.
    split; [reflexivity | lia].
  - exists new1. split; [exact Ht1 | lia].
Qed.

Lemma at_most_bind0 {A B} (m : M A) (k : A -> M B) :
  at_most_merch_fetches u m 0 -> (forall x, at_most_merch_fetches u (k x) 0) ->
  at_most_merch_fetches u (bind m k) 0.
Proof. intros Hm Hk. exact (at_most_bind m k 0 0 Hm Hk). Qed.

Lemma at_most_execute_query (srv : nat -> Request -> option HttpResp) (r : Request) :
  at_most_merch_fetches u (execute_query srv r) 0.
Proof.
  intros s. exists [EvQuery r]. unfold execute_query.
  destruct (srv (nreq s) r) as [resp|];
    [destruct (Z.eqb (status_code resp) 200); [destruct (errors (payload resp))|]|];
    (split; [reflexivity | unfold merch_fetches; simpl; lia]).
Qed.

End MerchLog.

#[local] Hint Resolve at_most_ret at_most_raise at_most_lift at_most_execute_query : merch_log.
#[local] Hint Extern 1 (at_most_merch_fetches _ (log _) 0) =>
  apply at_most_log; reflexivity : merch_log.
#[local] Hint Extern 2 (at_most_merch_fetches _ (bind _ _) 0) =>
  apply at_most_bind0; [| intros ?] : merch_log.
#[local] Hint Extern 3 (at_most_merch_fetches _ (if _ then _ else _) 0) =>
  match goal with |- context [if ?b then _ else _] => destruct b end : merch_log.

Lemma at_most_paginate {A} (u : string) (srv : nat -> Request -> option HttpResp)
    (mkreq : option string -> Request) (extract : Payload -> res (Page A)) :
  forall fuel cursor acc, at_most_merch_fetches u (paginate srv mkreq extract fuel cursor acc) 0.
Proof.
  induction fuel as [|fuel IH]; intros cursor acc; simpl; eauto 10 with merch_log.
Qed.
#[local] Hint Resolve at_most_paginate : merch_log.

Lemma at_most_fetch_counts (u : string) (srv : nat -> Request -> option HttpResp)
    (fuel : nat) (show_uuid : string) :
  at_most_merch_fetches u (fetch_counts srv fuel show_uuid) 0.
Proof. unfold fetch_counts. eauto 10 with merch_log. Qed.

Lemma at_most_fetch_shows_in_date_range (u : string) (srv : nat -> Request -> option HttpResp)
    (fuel : nat) (start_date end_date : string) :
  at_most_merch_fetches u (fetch_shows_in_date_range srv fuel start_date end_date) 0.
Proof.
  assert (Htours : forall account tours all,
             at_most_merch_fetches u (tours_loop srv fuel start_date end_date account tours all) 0).
  { intros account tours. induction tours as [|t ts IH]; intros all; simpl;
      unfold fetch_shows; eauto 10 with merch_log. }
  assert (Haccs : forall accounts all,
             at_most_merch_fetches u (accounts_loop srv fuel start_date end_date accounts all) 0).
  { induction accounts as [|a as_ IH]; intros all; simpl;
      unfold fetch_tours; eauto 10 with merch_log. }
  unfold fetch_shows_in_date_range, fetch_accounts. eauto 10 with merch_log.
Qed.

Lemma bind_log {A} (l : LogLine) (k : unit -> M A) (s : St) :
  bind (log l) k s = k tt (mkSt (nreq s) (trace s ++ [EvLog l])).
Proof. reflexivity. Qed.

Lemma bind_ret {A B} (x : A) (k : A -> M B) (s : St) : bind (ret x) k s = k x s.
Proof. reflexivity. Qed.

Lemma bind_lift {A B} (r : res A) (k : A -> M B) (s : St) :
  bind (lift r) k s = match r with Ok x => k x s | Err e => (s, Err e) end.
Proof. destruct r; reflexivity. Qed.

Lemma bind_assoc {A B C} (m : M A) (f : A -> M B) (g : B -> M C) (s : St) :
  bind (bind m f) g s = bind m (fun x => bind (f x) g) s.
Proof. unfold bind. destruct (m s) as [s' [x|e]]; reflexivity. Qed.

Lemma bind_run {A B} (m : M A) (k : A -> M B) (s : St) :
  bind m k s = let (s', r) := m s in match r with Ok x => k x s' | Err e => (s', Err e) end.
Proof. reflexivity. Qed.

(** Each [fetch_merchandise u'] call logs its line once, first. *)
Lemma fetch_merchandise_count (u u' : string) (srv : nat -> Request -> option HttpResp)
    (fuel : nat) (s : St) :
  exists new, trace (fst (fetch_merchandise srv fuel u' s)) = trace s ++ new /\
    merch_fetches u new = (if String.eqb u' u then 1 else 0)%nat.
Proof.
  unfold fetch_merchandise. rewrite bind_log.
  assert (Hrest : at_most_merch_fetches u
     (let* merch_items := paginate srv (merch_req u') merch_page fuel None [] in
      let* _ := log (LFetchedMerch (length merch_items) u') in ret merch_items) 0)
    by eauto 10 with merch_log.
  destruct (Hrest (mkSt (nreq s) (trace s ++ [EvLog (LFetchingMerch u')]))) as (new & Ht & Hn).
  exists (EvLog (LFetchingMerch u') :: new). split.
  - rewrite Ht. simpl. rewrite <- app_assoc. reflexivity.
  - change (EvLog (LFetchingMerch u') :: new) with ([EvLog (LFetchingMerch u')] ++ new).
    rewrite merch_fetches_app.
    unfold merch_fetches at 1. simpl.
    destruct (String.eqb u' u); simpl; lia.
Qed.

Definition merch_bound (u : string) (cache : gmap string (list MerchItem)) : nat :=
  match cache !! u with Some _ => 0 | None => 1 end.

(** The loop of [fetch_all_data] after the cache step: with the cache
    [cache'] holding the show's account, the rest of the iteration and the
    following shows log "Fetching merchandise for account u" within the bound
    of [cache'], and exactly once if they succeed and need it. *)
Lemma shows_loop_after_cache (u : string) (srv : nat -> Request -> option HttpResp) (fuel : nat)
    (show : AShow) (rest : list AShow) (all : list SoldRecord) :
  (forall cache all s,
     exists new, trace (fst (shows_loop srv fuel rest cache all s)) = trace s ++ new /\
       (merch_fetches u new <= merch_bound u cache)%nat /\
       (forall out, snd (shows_loop srv fuel rest cache all s) = Ok out ->
          cache !! u = None -> mentions_account u rest = true -> merch_fetches u new = 1%nat)) ->
  forall (cache' : gmap string (list MerchItem)) merchandise s1,
  cache' !! acc_uuid (a_account show) = Some merchandise ->
  let m :=
    (let* merchandise :=
       lift (match cache' !! acc_uuid (a_account show) with
             | Some m => Ok m | None => Err KeyError end) in
     let* counts := fetch_counts srv fuel (show_uuid (a_show show)) in
     let* rows := lift (join_counts show merchandise counts) in
     shows_loop srv fuel rest cache' (all ++ rows)) in
  exists new, trace (fst (m s1)) = trace s1 ++ new /\
    (merch_fetches u new <= merch_bound u cache')%nat /\
    (forall out, snd (m s1) = Ok out ->
       cache' !! u = None -> mentions_account u rest = true -> merch_fetches u new = 1%nat).
Proof.
  intros IH cache' merchandise s1 Hc m. subst m.
  rewrite bind_lift, Hc, bind_run.
  destruct (at_most_fetch_counts u srv fuel (show_uuid (a_show show)) s1) as (new1 & Ht1 & Hn1).
  destruct (fetch_counts srv fuel (show_uuid (a_show show)) s1) as [s2 [counts|e]]; simpl in Ht1.
  - rewrite bind_lift.
    destruct (join_counts show merchandise counts) as [rows|e].
    + destruct (IH cache' (all ++ rows) s2) as (new2 & Ht2 & Hn2 & Hok2).
      exists (new1 ++ new2). rewrite Ht2, Ht1, app_assoc, merch_fetches_app.
      split; [reflexivity|]. split; [lia|].
      intros out Hout Hnone Hment. specialize (Hok2 out Hout Hnone Hment). lia.
    + exists new1. split; [exact Ht1|]. split; [lia | discriminate].
  - exists new1. split; [exact Ht1|]. split; [lia | discriminate].
Qed.

Lemma shows_loop_merch (u : string) (srv : nat -> Request -> option HttpResp) (fuel : nat) :
  forall (shows : list AShow) (cache : gmap string (list MerchItem)) all s,
  exists new, trace (fst (shows_loop srv fuel shows cache all s)) = trace s ++ new /\
    (merch_fetches u new <= merch_bound u cache)%nat /\
    (forall out, snd (shows_loop srv fuel shows cache all s) = Ok out ->
       cache !! u = None -> mentions_account u shows = true -> merch_fetches u new = 1%nat).
Proof.
  induction shows as [|show rest IH]; intros cache all s.
  - exists []. rewrite app_nil_r. split; [reflexivity|].
    split; [unfold merch_fetches; simpl; lia | discriminate].
  - cbn [shows_loop]. rewrite bind_log.
    set (s1 := mkSt (nreq s) (trace s ++ [EvLog (LProcessingShow (show_uuid (a_show show))
                                                               (showDate (a_show show)))])).
    assert (Hlog : merch_fetches u [EvLog (LProcessingShow (show_uuid (a_show show))
                                                          (showDate (a_show show)))] = 0%nat)
      by reflexivity.
    destruct (cache !! acc_uuid (a_account show)) as [m|] eqn:Hc.
    + rewrite bind_ret.
      destruct (shows_loop_after_cache u srv fuel show rest all IH cache m s1 Hc)
        as (new & Ht & Hn & Hok).
      exists (EvLog (LProcessingShow (show_uuid (a_show show)) (showDate (a_show show))) :: new).
      split; [rewrite Ht; subst s1; simpl; rewrite <- app_assoc; reflexivity|].
      change (EvLog (LProcessingShow (show_uuid (a_show show)) (showDate (a_show show))) :: new)
        with ([EvLog (LProcessingShow (show_uuid (a_show show)) (showDate (a_show show)))] ++ new).
      rewrite merch_fetches_app, Hlog. simpl.
      split; [exact Hn|].
      intros out Hout Hnone Hm. apply (Hok out Hout Hnone).
      destruct (String.eqb_spec (acc_uuid (a_account show)) u) as [Heq|Hne];
        [rewrite Heq in Hc; congruence | exact Hm].
    + rewrite bind_assoc, bind_run.
      destruct (fetch_merchandise_count u (acc_uuid (a_account show)) srv fuel s1)
        as (newm & Htm & Hnm).
      destruct (fetch_merchandise srv fuel (acc_uuid (a_account show)) s1) as [s2 [items|e]];
        simpl in Htm.
      * rewrite bind_ret.
        assert (Hc' : <[acc_uuid (a_account show) := items]> cache !! acc_uuid (a_account show)
                      = Some items) by apply lookup_insert_eq.
        destruct (shows_loop_after_cache u srv fuel show rest all IH _ items s2 Hc')
          as (new & Ht & Hn & Hok).
        exists (EvLog (LProcessingShow (show_uuid (a_show show)) (showDate (a_show show)))
                  :: newm ++ new).
        split; [rewrite Ht, Htm; subst s1; simpl; rewrite <- !app_assoc; reflexivity|].
        change (EvLog (LProcessingShow (show_uuid (a_show show)) (showDate (a_show show)))
                  :: newm ++ new)
          with ([EvLog (LProcessingShow (show_uuid (a_show show)) (showDate (a_show show)))]
                  ++ newm ++ new).
        rewrite !merch_fetches_app, Hlog, Hnm. simpl.
        unfold merch_bound in *.
        destruct (String.eqb_spec (acc_uuid (a_account show)) u) as [Heq|Hne].
        -- subst u. rewrite Hc. rewrite lookup_insert_eq in Hn.
           split; [lia|]. intros. lia.
        -- rewrite lookup_insert_ne in Hn by congruence.
           rewrite (lookup_insert_ne cache (acc_uuid (a_account show)) u items) in Hok
             by congruence.
           split; [exact Hn|].
           intros out Hout Hnone Hm.
           apply (Hok out Hout Hnone).
           destruct (String.eqb_spec (acc_uuid (a_account show)) u) as [Heq'|Hne'];
             [contradiction | exact Hm].
      * exists (EvLog (LProcessingShow (show_uuid (a_show show)) (showDate (a_show show)))
                  :: newm).
        split; [simpl; rewrite Htm; subst s1; simpl; rewrite <- app_assoc; reflexivity|].
        change (EvLog (LProcessingShow (show_uuid (a_show show)) (showDate (a_show show)))
                  :: newm)
          with ([EvLog (LProcessingShow (show_uuid (a_show show)) (showDate (a_show show)))]
                  ++ newm).
        rewrite merch_fetches_app, Hlog, Hnm. simpl. unfold merch_bound.
        split; [|discriminate].
        destruct (String.eqb_spec (acc_uuid (a_account show)) u) as [Heq|Hne]; [|lia].
        rewrite <- Heq, Hc. lia.
Qed.

Lemma at_most_shows_loop_empty (u : string) (srv : nat -> Request -> option HttpResp)
    (fuel : nat) (shows : list AShow) :
  at_most_merch_fetches u (shows_loop srv fuel shows ∅ []) 1.
Proof.
  intros s. destruct (shows_loop_merch u srv fuel shows ∅ [] s) as (new & Ht & Hn & _).
  exists new. split; [exact Ht|]. unfold merch_bound in Hn. rewrite lookup_empty in Hn. exact Hn.
Qed.

(** C8 (confirmed). Within one [fetch_all_data] run, the line "Fetching
    merchandise for account u" that opens each [fetch_merchandise u] call is
    logged at most once for every account uuid [u]; and when the loop over
    the shows completes, it is logged exactly once for every account that
    owns at least one of the shows, e.g. two shows of the same account. *)
Theorem merchandise_fetched_once :
  (forall (srv : nat -> Request -> option HttpResp) (fuel : nat)
          (start_date end_date : string) (s : St) (u : string),
     exists new, trace (fst (fetch_all_data srv fuel start_date end_date s)) = trace s ++ new /\
       (merch_fetches u new <= 1)%nat) /\
  (forall (srv : nat -> Request -> option HttpResp) (fuel : nat) (shows : list AShow)
          (s s' : St) (out : list SoldRecord) (u : string),
     shows_loop srv fuel shows ∅ [] s = (s', Ok out) ->
     mentions_account u shows = true ->
     exists new, trace s' = trace s ++ new /\ merch_fetches u new = 1%nat).
Proof.
  split.
  - intros srv fuel start_date end_date s u.
    assert (H : at_most_merch_fetches u (fetch_all_data srv fuel start_date end_date) (0 + (0 + (1 + 0)))).
    { unfold fetch_all_data.
      apply at_most_bind; [eauto with merch_log | intros _].
      apply at_most_bind; [apply at_most_fetch_shows_in_date_range | intros shows].
      apply at_most_bind; [apply at_most_shows_loop_empty | intros all].
      eauto 10 with merch_log. }
    exact (H s).
  - intros srv fuel shows s s' out u Hrun Hment.
    destruct (shows_loop_merch u srv fuel shows ∅ [] s) as (new & Ht & _ & Hok).
    rewrite Hrun in Ht, Hok. simpl in Ht, Hok.
    exists new. split; [exact Ht|].
    apply (Hok out eq_refl); [apply lookup_empty | exact Hment].
Qed.

Lemma merchandise_fetched_once_witness :
  shows_loop srv_catalog 3 ex_two_shows ∅ [] (mkSt 0 []) =
    (fst (shows_loop srv_catalog 3 ex_two_shows ∅ [] (mkSt 0 [])),
     Ok [mkSold "BandX" "TourY" "Austin, TX, US" "Tee" "M" "A1" 10 0 8 "2024-06-01" (PNum 2500);
         mkSold "BandX" "TourY" "Dallas, TX, US" "Tee" "M" "A1" 10 0 8 "2024-06-02" (PNum 2500)]) /\
  mentions_account "acc-1" ex_two_shows = true /\
  exists new, trace (fst (shows_loop srv_catalog 3 ex_two_shows ∅ [] (mkSt 0 []))) = [] ++ new /\
    merch_fetches "acc-1" new = 1%nat.
Proof.
  assert (Hrun : shows_loop srv_catalog 3 ex_two_shows ∅ [] (mkSt 0 []) =
    (fst (shows_loop srv_catalog 3 ex_two_shows ∅ [] (mkSt 0 [])),
     Ok [mkSold "BandX" "TourY" "Austin, TX, US" "Tee" "M" "A1" 10 0 8 "2024-06-01" (PNum 2500);
         mkSold "BandX" "TourY" "Dallas, TX, US" "Tee" "M" "A1" 10 0 8 "2024-06-02" (PNum 2500)]))
    by (vm_compute; reflexivity).
  split; [exact Hrun|]. split; [reflexivity|].
  exact (proj2 merchandise_fetched_once srv_catalog 3%nat ex_two_shows (mkSt 0 []) _ _ "acc-1"
           Hrun eq_refl).
Defined.

(** ** The export table *)

Lemma string_app_cons (ch : Ascii.ascii) (a b : string) :
  (String ch a ++ b)%string = String ch (a ++ b).
Proof. reflexivity. Qed.

Lemma string_app_assoc (a b c : string) : ((a ++ b) ++ c)%string = (a ++ b ++ c)%string.
Proof.
  induction a as [|ch a IH]; [reflexivity|].
  rewrite !string_app_cons, IH. reflexivity.
Qed.

Lemma df_of_records_nonempty (data : list SoldRecord) :
  data <> [] ->
  df_of_records data =
    [("Band", map (fun r => CStr (Band r)) data);
     ("Tour Name", map (fun r => CStr (TourName r)) data);
     ("Venue", map (fun r => CStr (Venue r)) data);
     ("Product Name", map (fun r => CStr (ProductName r)) data);
     ("Size", map (fun r => CStr (Size r)) data);
     ("SKU", map (fun r => CStr (SKU r)) data);
     ("In", map (fun r => CInt (In_ r)) data);
     ("Out", map (fun r => CInt (Out_ r)) data);
     ("Sold", map (fun r => CInt (Sold r)) data);
     ("Show Date", map (fun r => CStr (ShowDate r)) data);
     ("Price", map (fun r => price_to_cell (Price r)) data)].
Proof. destruct data; [contradiction | reflexivity]. Qed.

Lemma cells_add_map {A} (f g : A -> string) (l : list A) :
  cells_add (map (fun r => CStr (f r)) l) (map (fun r => CStr (g r)) l) =
  Ok (map (fun r => CStr (f r ++ g r)) l).
Proof. induction l as [|x l IH]; simpl; [reflexivity | rewrite IH; reflexivity]. Qed.

Lemma repeat_length_map {A B} (c : B) (l : list A) : repeat c (length l) = map (fun _ => c) l.
Proof. induction l as [|x l IH]; simpl; [reflexivity | rewrite IH; reflexivity]. Qed.

Lemma cells_add_str_map {A} (f : A -> string) (l : list A) (s : string) :
  cells_add_str (map (fun r => CStr (f r)) l) s = Ok (map (fun r => CStr (f r ++ s)) l).
Proof.
  unfold cells_add_str. rewrite length_map, repeat_length_map.
  apply (cells_add_map f (fun _ => s)).
Qed.

Lemma cells_neg_map {A} (f : A -> Z) (l : list A) :
  cells_neg (map (fun r => CInt (f r)) l) = Ok (map (fun r => CInt (- f r)) l).
Proof. induction l as [|x l IH]; simpl; [reflexivity | rewrite IH; reflexivity]. Qed.

Lemma first_segments_map {A} (f : A -> string) (l : list A) :
  first_segments (map (fun r => CStr (f r)) l) = Ok (map (fun r => split_first " - " (f r)) l).
Proof. induction l as [|x l IH]; simpl; [reflexivity | rewrite IH; reflexivity]. Qed.

Lemma unique_from_in (x : string) : forall l seen,
  In x l -> In x seen \/ In x (unique_from seen l).
Proof.
  induction l as [|y l IH]; intros seen Hx; [destruct Hx|].
  simpl. destruct (existsb (String.eqb y) seen) eqn:Hseen.
  - destruct Hx as [<- | Hx]; [| exact (IH seen Hx)].
    left. apply existsb_exists in Hseen. destruct Hseen as [z [Hz Heq]].
    apply String.eqb_eq in Heq. subst z. exact Hz.
  - destruct Hx as [<- | Hx]; [right; left; reflexivity|].
    destruct (IH (y :: seen) Hx) as [[<- | Hin] | Hin].
    + right. left. reflexivity.
    + left. exact Hin.
    + right. right. exact Hin.
Qed.

Lemma existsb_filter_in (checked : string -> bool) (x : string) (bands : list string) :
  In x bands -> existsb (String.eqb x) (List.filter checked bands) = checked x.
Proof.
  intros Hx. destruct (checked x) eqn:Hc.
  - apply existsb_exists. exists x. split; [apply filter_In; split; assumption | apply String.eqb_refl].
  - apply Bool.not_true_iff_false. intros Hex.
    apply existsb_exists in Hex. destruct Hex as [y [Hy Heq]].
    apply filter_In in Hy. destruct Hy as [_ Hy].
    apply String.eqb_eq in Heq. subst y. congruence.
Qed.

Lemma mask_filter_map {A B} (p : A -> bool) (f : A -> B) (l : list A) :
  mask_filter (map p l) (map f l) = map f (List.filter p l).
Proof.
  induction l as [|x l IH]; simpl; [reflexivity|].
  destruct (p x); simpl; rewrite IH; reflexivity.
Qed.

(** The mask of [filtered_df] keeps a row exactly when its band is checked. *)
Lemma band_mask (checked : string -> bool) (f : SoldRecord -> string) (data : list SoldRecord) :
  let segs := map (fun r => split_first " - " (f r)) data in
  map (fun b => existsb (String.eqb b) (List.filter checked (unique_from [] segs))) segs =
  map (fun r => checked (split_first " - " (f r))) data.
Proof.
  intros segs. subst segs. rewrite map_map. apply map_ext_in. intros r Hr.
  apply existsb_filter_in.
  destruct (unique_from_in (split_first " - " (f r))
              (map (fun r => split_first " - " (f r)) data) []) as [[] | Hin];
    [apply (in_map (fun r => split_first " - " (f r))); exact Hr | exact Hin].
Qed.

(** C9 (confirmed). Whenever [main] builds its table, the table has exactly
    the columns SKU, Action, Quantity, Location, Reason in that order, and its
    rows are the records whose band is checked, in order, with
    SKU = the record's SKU, Action = 'Replace', Quantity = - Sold,
    Location = '<band> - <tour>' and Reason = 'Nightly Sales'. *)
Theorem export_table_columns (data : list SoldRecord) (checked : string -> bool)
    (tbl : DataFrame) :
  main_export data checked = Ok tbl ->
  map fst tbl = ["SKU"; "Action"; "Quantity"; "Location"; "Reason"] /\
  tbl =
    (let recs := List.filter
                   (fun r => checked (split_first " - " (Band r ++ " - " ++ TourName r))) data in
     [("SKU", map (fun r => CStr (SKU r)) recs);
      ("Action", map (fun _ => CStr "Replace") recs);
      ("Quantity", map (fun r => CInt (- Sold r)) recs);
      ("Location", map (fun r => CStr (Band r ++ " - " ++ TourName r)) recs);
      ("Reason", map (fun _ => CStr "Nightly Sales") recs)]).
Proof.
  intros H.
  assert (Hne : data <> []) by (intros ->; discriminate H).
  unfold main_export in H. rewrite (df_of_records_nonempty data Hne) in H.
  simpl in H.
  rewrite cells_add_str_map in H. simpl in H.
  rewrite (cells_add_map (fun r => Band r ++ " - ")%string TourName) in H. simpl in H.
  rewrite cells_neg_map in H. simpl in H.
  rewrite (first_segments_map (fun r => (Band r ++ " - ") ++ TourName r)%string) in H.
  simpl in H. injection H as <-.
  rewrite (band_mask checked (fun r => (Band r ++ " - ") ++ TourName r)%string data).
  rewrite !length_map, !repeat_length_map, !mask_filter_map.
  rewrite (List.filter_ext (fun r => checked (split_first " - " ((Band r ++ " - ") ++ TourName r)))
             (fun r => checked (split_first " - " (Band r ++ " - " ++ TourName r))))
    by (intros r; rewrite string_app_assoc; reflexivity).
  rewrite (map_ext (fun r => CStr ((Band r ++ " - ") ++ TourName r))
                   (fun r => CStr (Band r ++ " - " ++ TourName r)))
    by (intros r; rewrite string_app_assoc; reflexivity).
  split; reflexivity.
Qed.

Lemma export_table_columns_witness :
  main_export [mkSold "BandX" "TourY" "Austin, TX, US" "Tee" "M" "A1" 10 0 8 "2024-06-01" (PNum 2500)]
              (fun _ => true) =
    Ok [("SKU", [CStr "A1"]); ("Action", [CStr "Replace"]); ("Quantity", [CInt (-8)]);
        ("Location", [CStr "BandX - TourY"]); ("Reason", [CStr "Nightly Sales"])] /\
  map fst [("SKU", [CStr "A1"]); ("Action", [CStr "Replace"]); ("Quantity", [CInt (-8)]);
           ("Location", [CStr "BandX - TourY"]); ("Reason", [CStr "Nightly Sales"])] =
    ["SKU"; "Action"; "Quantity"; "Location"; "Reason"].
Proof.
  assert (H : main_export
                [mkSold "BandX" "TourY" "Austin, TX, US" "Tee" "M" "A1" 10 0 8 "2024-06-01" (PNum 2500)]
                (fun _ => true) =
              Ok [("SKU", [CStr "A1"]); ("Action", [CStr "Replace"]); ("Quantity", [CInt (-8)]);
                  ("Location", [CStr "BandX - TourY"]); ("Reason", [CStr "Nightly Sales"])])
    by (vm_compute; reflexivity).
  split; [exact H | exact (proj1 (export_table_columns _ _ _ H))].
Defined.

(** With no record at all, [df['Band']] fails on the empty DataFrame. *)
Example main_export_empty : main_export [] (fun _ => true) = Err KeyError.
Proof. reflexivity. Qed.

(* ------------------------------------------------------------------ *)
(** ** Pagination: failures and non-termination *)

Lemma execute_query_state (srv : nat -> Request -> option HttpResp) (r : Request) (s : St) :
  execute_query srv r s =
    (mkSt (S (nreq s)) (trace s ++ [EvQuery r]),
     snd (execute_query srv r (mkSt (nreq s) []))).
Proof.
  unfold execute_query. simpl.
  destruct (srv (nreq s) r) as [resp|];
    [destruct (Z.eqb (status_code resp) 200); [destruct (errors (payload resp))|]|];
    reflexivity.
Qed.

(** A collector that has read [pages], each announcing a next page, and whose
    next request fails, raises that failure: it sends one request more than
    there are pages and returns none of the nodes already read. *)
Theorem paginate_error_after_pages {A} (srv : nat -> Request -> option HttpResp)
    (mkreq : option string -> Request) (extract : Payload -> res (Page A))
    (pages : list (Page A)) (e : error) :
  forall fuel c0 acc s,
  serves srv mkreq extract (nreq s) c0 pages ->
  forallb hasNextPage pages = true ->
  (length pages < fuel)%nat ->
  snd (execute_query srv (mkreq (next_cursor c0 pages)) (mkSt (nreq s + length pages) [])) = Err e ->
  paginate srv mkreq extract fuel c0 acc s =
    (mkSt (nreq s + S (length pages))
          (trace s ++ map (fun c => EvQuery (mkreq c)) (cursors_of c0 pages ++ [next_cursor c0 pages])),
     Err e).
Proof.
  induction pages as [|p rest IH]; intros fuel c0 acc s Hserve Hnext Hfuel Hfail.
  - destruct fuel as [|fuel]; [simpl in Hfuel; lia|].
    simpl in Hfail. rewrite Nat.add_0_r in Hfail.
    simpl paginate. unfold bind at 1. rewrite execute_query_state, Hfail.
    simpl. rewrite Nat.add_1_r. reflexivity.
  - destruct Hserve as [(resp & Hsrv & Hst & Herr & Hext) Hrest].
    simpl in Hnext. apply andb_true_iff in Hnext. destruct Hnext as [Hp Hnext].
    destruct fuel as [|fuel]; [simpl in Hfuel; lia|].
    simpl paginate. unfold bind, execute_query at 1.
    rewrite Hsrv, Hst, Herr. simpl. rewrite Hext. simpl. rewrite Hp. simpl.
    assert (Hfuel' : (length rest < fuel)%nat) by (simpl in Hfuel; lia).
    assert (Hfail' : snd (execute_query srv (mkreq (next_cursor (endCursor p) rest))
                            (mkSt (S (nreq s) + length rest) [])) = Err e)
      by (simpl in Hfail; rewrite <- Nat.add_succ_comm in Hfail; exact Hfail).
    rewrite (IH fuel (endCursor p) (acc ++ nodes p)
               (mkSt (S (nreq s)) (trace s ++ [EvQuery (mkreq c0)])) Hrest Hnext Hfuel' Hfail').
    simpl. f_equal. f_equal; [lia|].
    rewrite <- app_assoc. reflexivity.
Qed.

Lemma paginate_error_after_pages_witness :
  (serves srv_fail_second accounts_req accounts_page 0 None [ex_page 0] /\
   forallb hasNextPage [ex_page 0] = true /\ (length [ex_page 0] < 3)%nat /\
   snd (execute_query srv_fail_second (accounts_req (next_cursor None [ex_page 0]))
          (mkSt (0 + length [ex_page 0]) [])) = Err (StatusFailed 500 "boom")) /\
  fetch_accounts srv_fail_second 3 (mkSt 0 []) =
    (mkSt 2 [EvQuery (accounts_req None); EvQuery (accounts_req (Some "cur-1"))],
     Err (StatusFailed 500 "boom")).
Proof.
  assert (Hs : serves srv_fail_second accounts_req accounts_page 0 None [ex_page 0]).
  { simpl. split; [eexists; repeat split; reflexivity | exact I]. }
  split; [split; [exact Hs | split; [reflexivity | split; [simpl; lia | reflexivity]]]|].
  unfold fetch_accounts.
  exact (paginate_error_after_pages srv_fail_second accounts_req accounts_page [ex_page 0]
           (StatusFailed 500 "boom") 3 None [] (mkSt 0 []) Hs eq_refl ltac:(simpl; lia) eq_refl).
Defined.

(** Against a server whose every answer is a readable page announcing a next
    page, the [while True] loop never stops: whatever bound [fuel] is put on
    the number of iterations, it has sent [fuel] requests and is still
    looping. *)
Theorem paginate_never_ends {A} (srv : nat -> Request -> option HttpResp)
    (mkreq : option string -> Request) (extract : Payload -> res (Page A)) :
  (forall k c, exists resp p, srv k (mkreq c) = Some resp /\ status_code resp = 200 /\
     errors (payload resp) = None /\ extract (payload resp) = Ok p /\ hasNextPage p = true) ->
  forall fuel c acc s,
  nreq (fst (paginate srv mkreq extract fuel c acc s)) = (nreq s + fuel)%nat /\
  snd (paginate srv mkreq extract fuel c acc s) = Err OutOfFuel.
Proof.
  intros Hsrv. induction fuel as [|fuel IH]; intros c acc s.
  - simpl. split; [lia | reflexivity].
  - destruct (Hsrv (nreq s) c) as (resp & p & Hr & Hst & Herr & Hext & Hp).
    simpl paginate. unfold bind, execute_query.
    rewrite Hr, Hst, Herr. simpl. rewrite Hext. simpl. rewrite Hp. simpl.
    destruct (IH (endCursor p) (acc ++ nodes p)
                (mkSt (S (nreq s)) (trace s ++ [EvQuery (mkreq c)]))) as [Hn He].
    split; [rewrite Hn; simpl; lia | exact He].
Qed.

Lemma paginate_never_ends_witness :
  (forall k c, exists resp p, srv_endless k (accounts_req c) = Some resp /\
     status_code resp = 200 /\ errors (payload resp) = None /\
     accounts_page (payload resp) = Ok p /\ hasNextPage p = true) /\
  nreq (fst (fetch_accounts srv_endless 50 (mkSt 0 []))) = 50%nat /\
  snd (fetch_accounts srv_endless 50 (mkSt 0 [])) = Err OutOfFuel.
Proof.
  assert (H : forall k c, exists resp p, srv_endless k (accounts_req c) = Some resp /\
     status_code resp = 200 /\ errors (payload resp) = None /\
     accounts_page (payload resp) = Ok p /\ hasNextPage p = true).
  { intros k c. do 2 eexists. repeat split; reflexivity. }
  split; [exact H|]. unfold fetch_accounts.
  exact (paginate_never_ends srv_endless accounts_req accounts_page H 50 None [] (mkSt 0 [])).
Defined.

(* ------------------------------------------------------------------ *)
(** ** The join of a show's counts *)

Lemma calculate_sold_eq (count : CountNode) :
  merchAdds count <> JNull -> calculate_sold count = Ok (sold_spec count).
Proof.
  intros Hadds. unfold calculate_sold, sold_spec, adds_list.
  rewrite !or0_py_get.
  destruct (merchAdds count) as [| |l]; [| contradiction |]; simpl.
  - f_equal; lia.
  - f_equal. rewrite (map_ext _ _ (fun a => or0_py_get (quantity a))). reflexivity.
Qed.

Lemma calculate_sold_err (count : CountNode) (e : error) :
  calculate_sold count = Err e -> e = TypeError /\ merchAdds count = JNull.
Proof.
  unfold calculate_sold. destruct (merchAdds count) as [| |l]; simpl; intros H;
    [discriminate | injection H as <-; split; reflexivity | discriminate].
Qed.

Lemma emit_count_matched (show : AShow) (merchandise : list MerchItem) (count : CountNode) :
  matched merchandise count = true -> merchAdds count <> JNull ->
  exists r, emit_count show merchandise count = Ok (Some r) /\ Sold r = sold_spec count.
Proof.
  unfold matched, emit_count. intros Hm Hadds.
  destruct (find_merch_item merchandise (merchVariantUuid count)); [|discriminate].
  rewrite (calculate_sold_eq count Hadds). eexists. split; reflexivity.
Qed.

Lemma emit_count_unmatched (show : AShow) (merchandise : list MerchItem) (count : CountNode) :
  matched merchandise count = false -> emit_count show merchandise count = Ok None.
Proof.
  unfold matched, emit_count. intros Hm.
  destruct (find_merch_item merchandise (merchVariantUuid count)); [discriminate | reflexivity].
Qed.

(** When no count whose variant is in the catalog has a null [merchAdds], the
    loop over a show's counts succeeds and emits one record per such count, in
    the order of the counts, whose Sold value is
    count_in + adds - count_out - comps with missing or null fields as zero. *)
Theorem join_counts_sold (show : AShow) (merchandise : list MerchItem) (counts : list CountNode) :
  (forall count, In count counts -> matched merchandise count = true -> merchAdds count <> JNull) ->
  exists rs, join_counts show merchandise counts = Ok rs /\
    map Sold rs = map sold_spec (List.filter (matched merchandise) counts).
Proof.
  induction counts as [|count rest IH]; intros Hadds; [exists []; split; reflexivity|].
  destruct IH as (rs & Hrs & Hsold); [intros c Hc; apply Hadds; right; exact Hc|].
  simpl. destruct (matched merchandise count) eqn:Hm.
  - destruct (emit_count_matched show merchandise count Hm (Hadds count (or_introl eq_refl) Hm))
      as (r & Hr & Hs).
    rewrite Hr, Hrs. exists (r :: rs). split; [reflexivity|].
    simpl. rewrite Hs, Hsold. reflexivity.
  - rewrite (emit_count_unmatched show merchandise count Hm), Hrs.
    exists rs. split; [reflexivity | exact Hsold].
Qed.

Lemma join_counts_sold_witness :
  (forall count, In count [ex_count; ex_count_unknown] ->
     matched [ex_item] count = true -> merchAdds count <> JNull) /\
  exists rs, join_counts ex_show [ex_item] [ex_count; ex_count_unknown] = Ok rs /\
    map Sold rs = [8].
Proof.
  assert (H : forall count, In count [ex_count; ex_count_unknown] ->
     matched [ex_item] count = true -> merchAdds count <> JNull).
  { intros count [<- | [<- | []]]; intros _; discriminate. }
  split; [exact H|].
  exact (join_counts_sold ex_show [ex_item] [ex_count; ex_count_unknown] H).
Defined.

(** The loop over a show's counts can only fail with a [TypeError], and only
    because of a count whose variant is in the catalog and whose [merchAdds]
    is null. A count whose variant is not in the catalog, whatever its
    [merchAdds] (null included), is dropped: it emits no record and raises
    nothing, and the loop gives the same result as without it. *)
Theorem join_counts_error (show : AShow) (merchandise : list MerchItem) :
  (forall (counts : list CountNode) (e : error),
     join_counts show merchandise counts = Err e ->
     e = TypeError /\
     exists count, In count counts /\ matched merchandise count = true /\
                   merchAdds count = JNull) /\
  (forall (count : CountNode) (pre post : list CountNode),
     matched merchandise count = false ->
     emit_count show merchandise count = Ok None /\
     join_counts show merchandise (pre ++ count :: post) =
     join_counts show merchandise (pre ++ post)).
Proof.
  split.
  - induction counts as [|count rest IH]; intros e; simpl; [discriminate|].
    destruct (emit_count show merchandise count) as [o|e'] eqn:Hemit.
    + destruct (join_counts show merchandise rest) as [rs|e''] eqn:Hrest; [discriminate|].
      intros H. injection H as <-. destruct (IH e'' eq_refl) as [He (c & Hc & Hm & Hn)].
      split; [exact He|]. exists c. split; [right; exact Hc | split; assumption].
    + intros H. injection H as <-.
      unfold emit_count in Hemit.
      destruct (find_merch_item merchandise (merchVariantUuid count)) eqn:Hf; [|discriminate].
      destruct (calculate_sold count) as [sold|e''] eqn:Hs; [discriminate|].
      injection Hemit as <-. destruct (calculate_sold_err count e'' Hs) as [He Hn].
      split; [exact He|]. exists count. split; [left; reflexivity|].
      split; [unfold matched; rewrite Hf; reflexivity | exact Hn].
  - intros count pre post Hm.
    pose proof (emit_count_unmatched show merchandise count Hm) as Hemit.
    split; [exact Hemit|].
    rewrite !join_counts_app. simpl. rewrite Hemit.
    destruct (join_counts show merchandise post); reflexivity.
Qed.

Lemma join_counts_error_witness :
  (join_counts ex_show [ex_item] [ex_count; ex_count_null_adds] = Err TypeError /\
   exists count, In count [ex_count; ex_count_null_adds] /\
     matched [ex_item] count = true /\ merchAdds count = JNull) /\
  (matched [ex_item] ex_count_unknown_null_adds = false /\
   emit_count ex_show [ex_item] ex_count_unknown_null_adds = Ok None /\
   join_counts ex_show [ex_item] ([ex_count] ++ ex_count_unknown_null_adds :: []) =
   join_counts ex_show [ex_item] ([ex_count] ++ [])).
Proof.
  assert (H : join_counts ex_show [ex_item] [ex_count; ex_count_null_adds] = Err TypeError)
    by reflexivity.
  assert (Hm : matched [ex_item] ex_count_unknown_null_adds = false) by reflexivity.
  split; [split; [exact H | exact (proj2 (proj1 (join_counts_error ex_show [ex_item])
                                              [ex_count; ex_count_null_adds] TypeError H))]|].
  split; [exact Hm|].
  exact (proj2 (join_counts_error ex_show [ex_item]) ex_count_unknown_null_adds [ex_count] [] Hm).
Defined.

Lemma filter_nil_false {A} (f : A -> bool) (l : list A) (x : A) :
  List.filter f l = [] -> In x l -> f x = false.
Proof.
  intros Hf Hx. destruct (f x) eqn:E; [|reflexivity].
  assert (Hin : In x (List.filter f l)) by (apply filter_In; split; assumption).
  rewrite Hf in Hin. destruct Hin.
Qed.

(** The item a count is joined to is the first item of the catalog, in the
    order it was fetched, that has a variant with the count's uuid: every
    item before it has none. *)
Theorem find_merch_item_first (merchandise : list MerchItem) (u : string) (item : MerchItem) :
  find_merch_item merchandise u = Some item ->
  exists pre post, merchandise = pre ++ item :: post /\
    (forall i, In i pre -> forall v, In v (merchVariants i) -> var_uuid v <> u) /\
    exists v, In v (merchVariants item) /\ var_uuid v = u.
Proof.
  unfold find_merch_item, matching_items.
  induction merchandise as [|i rest IH]; simpl; [discriminate|].
  destruct (List.filter (fun variant => String.eqb (var_uuid variant) u) (merchVariants i))
    as [|v vs] eqn:Hf; simpl.
  - intros H. destruct (IH H) as (pre & post & -> & Hpre & Hv).
    exists (i :: pre), post. split; [reflexivity|]. split; [|exact Hv].
    intros j [<- | Hj] w Hw; [| exact (Hpre j Hj w Hw)].
    intros Heq. pose proof (filter_nil_false _ _ w Hf Hw) as Hw'. simpl in Hw'.
    rewrite Heq, String.eqb_refl in Hw'. discriminate.
  - intros H. injection H as <-. exists [], rest. split; [reflexivity|].
    split; [intros j []|].
    assert (Hv : In v (List.filter (fun variant => String.eqb (var_uuid variant) u) (merchVariants i)))
      by (rewrite Hf; left; reflexivity).
    apply filter_In in Hv. destruct Hv as [Hv Heq].
    exists v. split; [exact Hv | apply String.eqb_eq; exact Heq].
Qed.

Lemma find_merch_item_first_witness :
  find_merch_item [mkItem "Hoodie" "apparel" "item-0" [ex_variant_b]; ex_item] "var-a" = Some ex_item /\
  exists pre post, [mkItem "Hoodie" "apparel" "item-0" [ex_variant_b]; ex_item] = pre ++ ex_item :: post /\
    (forall i, In i pre -> forall v, In v (merchVariants i) -> var_uuid v <> "var-a") /\
    exists v, In v (merchVariants ex_item) /\ var_uuid v = "var-a".
Proof.
  assert (H : find_merch_item [mkItem "Hoodie" "apparel" "item-0" [ex_variant_b]; ex_item] "var-a"
              = Some ex_item) by reflexivity.
  split; [exact H | exact (find_merch_item_first _ _ _ H)].
Defined.

(* ------------------------------------------------------------------ *)
(** ** Collecting the shows *)

Lemma tours_loop_tags (srv : nat -> Request -> option HttpResp) (fuel : nat)
    (start_date end_date : string) (account : Account) :
  forall tours all s s' out,
  tours_loop srv fuel start_date end_date account tours all s = (s', Ok out) ->
  exists new, out = all ++ new /\
    forall x, In x new -> a_account x = account /\ In (a_tour x) tours.
Proof.
  induction tours as [|tour rest IH]; intros all s s' out H.
  - simpl in H. injection H as _ <-. exists []. rewrite app_nil_r.
    split; [reflexivity | intros x []].
  - cbn [tours_loop] in H. rewrite bind_log in H. cbv beta in H. rewrite bind_run in H.
    destruct (fetch_shows srv fuel (tour_uuid tour) start_date end_date _) as [s1 [shows|e]];
      [|discriminate].
    destruct (IH _ _ _ _ H) as (new & -> & Hnew).
    exists (map (fun show => mkAShow show account tour) shows ++ new).
    split; [rewrite app_assoc; reflexivity|].
    intros x Hx. apply in_app_or in Hx. destruct Hx as [Hx|Hx].
    + apply in_map_iff in Hx. destruct Hx as (show & <- & _).
      split; [reflexivity | left; reflexivity].
    + destruct (Hnew x Hx) as [Ha Ht]. split; [exact Ha | right; exact Ht].
Qed.

Lemma accounts_loop_tags (srv : nat -> Request -> option HttpResp) (fuel : nat)
    (start_date end_date : string) :
  forall accounts all s s' out,
  accounts_loop srv fuel start_date end_date accounts all s = (s', Ok out) ->
  exists new, out = all ++ new /\ forall x, In x new -> In (a_account x) accounts.
Proof.
  induction accounts as [|account rest IH]; intros all s s' out H.
  - simpl in H. injection H as _ <-. exists []. rewrite app_nil_r.
    split; [reflexivity | intros x []].
  - cbn [accounts_loop] in H. rewrite bind_log in H. cbv beta in H. rewrite bind_run in H.
    destruct (fetch_tours srv fuel (acc_uuid account) _) as [s1 [tours|e]]; [|discriminate].
    rewrite bind_run in H.
    destruct (tours_loop srv fuel start_date end_date account tours all s1)
      as [s2 [all'|e]] eqn:Ht; [|discriminate].
    destruct (tours_loop_tags srv fuel start_date end_date account tours all s1 s2 all' Ht)
      as (new1 & -> & Hnew1).
    destruct (IH _ _ _ _ H) as (new2 & -> & Hnew2).
    exists (new1 ++ new2). split; [rewrite app_assoc; reflexivity|].
    intros x Hx. apply in_app_or in Hx. destruct Hx as [Hx|Hx].
    + left. symmetry. exact (proj1 (Hnew1 x Hx)).
    + right. exact (Hnew2 x Hx).
Qed.

(** Every show that [fetch_shows_in_date_range] returns carries, as
    [show['account']], one of the accounts returned by [fetch_accounts]. *)
Theorem shows_tagged_with_accounts (srv : nat -> Request -> option HttpResp) (fuel : nat)
    (start_date end_date : string) (s s' : St) (out : list AShow) :
  fetch_shows_in_date_range srv fuel start_date end_date s = (s', Ok out) ->
  exists s1 accounts,
    fetch_accounts srv fuel (mkSt (nreq s) (trace s ++ [EvLog (LFetchingShows start_date end_date)]))
      = (s1, Ok accounts) /\
    forall x, In x out -> In (a_account x) accounts.
Proof.
  unfold fetch_shows_in_date_range. rewrite bind_log. cbv beta. rewrite bind_run.
  destruct (fetch_accounts srv fuel _) as [s1 [accounts|e]] eqn:Ha; [|discriminate].
  rewrite bind_run.
  destruct (accounts_loop srv fuel start_date end_date accounts [] s1) as [s2 [all|e]] eqn:Hl;
    [|discriminate].
  rewrite bind_log. intros H. injection H as _ <-.
  exists s1, accounts. split; [reflexivity|].
  destruct (accounts_loop_tags srv fuel start_date end_date accounts [] s1 s2 all Hl)
    as (new & -> & Hnew).
  exact Hnew.
Qed.

Lemma shows_tagged_with_accounts_witness :
  fetch_shows_in_date_range srv_tree 3 "2024-06-01" "2024-06-30" (mkSt 0 []) =
    (fst (fetch_shows_in_date_range srv_tree 3 "2024-06-01" "2024-06-30" (mkSt 0 [])),
     Ok [ex_show]) /\
  exists s1 accounts,
    fetch_accounts srv_tree 3
      (mkSt 0 ([] ++ [EvLog (LFetchingShows "2024-06-01" "2024-06-30")])) = (s1, Ok accounts) /\
    forall x, In x [ex_show] -> In (a_account x) accounts.
Proof.
  assert (H : fetch_shows_in_date_range srv_tree 3 "2024-06-01" "2024-06-30" (mkSt 0 []) =
    (fst (fetch_shows_in_date_range srv_tree 3 "2024-06-01" "2024-06-30" (mkSt 0 [])),
     Ok [ex_show])) by (vm_compute; reflexivity).
  split; [exact H|].
  exact (shows_tagged_with_accounts srv_tree 3 "2024-06-01" "2024-06-30" (mkSt 0 []) _ _ H).
Defined.

(* ------------------------------------------------------------------ *)
(** ** The records of [fetch_all_data] *)

Lemma emit_count_fields (show : AShow) (merchandise : list MerchItem) (count : CountNode)
    (r : SoldRecord) :
  emit_count show merchandise count = Ok (Some r) ->
  Band r = artistName (a_account show) /\ TourName r = tourName (a_tour show) /\
  ShowDate r = showDate (a_show show) /\
  Venue r = (city (location (a_show show)) ++ ", " ++ stateProvince (location (a_show show))
             ++ ", " ++ country (location (a_show show)))%string.
Proof.
  unfold emit_count.
  destruct (find_merch_item merchandise (merchVariantUuid count)); [|discriminate].
  destruct (calculate_sold count); [|discriminate].
  intros H. injection H as <-. repeat split.
Qed.

Lemma join_counts_fields (show : AShow) (merchandise : list MerchItem) :
  forall counts rs, join_counts show merchandise counts = Ok rs ->
  forall r, In r rs ->
  Band r = artistName (a_account show) /\ TourName r = tourName (a_tour show) /\
  ShowDate r = showDate (a_show show) /\
  Venue r = (city (location (a_show show)) ++ ", " ++ stateProvince (location (a_show show))
             ++ ", " ++ country (location (a_show show)))%string.
Proof.
  induction counts as [|count rest IH]; simpl; intros rs H r Hr.
  - injection H as <-. destruct Hr.
  - destruct (emit_count show merchandise count) as [o|e] eqn:He; [|discriminate].
    destruct (join_counts show merchandise rest) as [rs'|e] eqn:Hrest; [|discriminate].
    injection H as <-. apply in_app_or in Hr. destruct Hr as [Hr|Hr].
    + destruct o as [r'|]; [|destruct Hr]. destruct Hr as [<- | []].
      exact (emit_count_fields show merchandise count r' He).
    + exact (IH rs' eq_refl r Hr).
Qed.

(** One iteration of the loop over the shows, when the run goes on: the
    rows it appends are the join of the show's counts against the merchandise
    the (updated) cache holds for the show's account. *)
Lemma shows_loop_cons_ok (srv : nat -> Request -> option HttpResp) (fuel : nat)
    (show : AShow) (rest : list AShow) (cache : gmap string (list MerchItem))
    (all : list SoldRecord) (s s' : St) (out : list SoldRecord) :
  shows_loop srv fuel (show :: rest) cache all s = (s', Ok out) ->
  exists cache' merchandise counts rows s2,
    cache' !! acc_uuid (a_account show) = Some merchandise /\
    join_counts show merchandise counts = Ok rows /\
    shows_loop srv fuel rest cache' (all ++ rows) s2 = (s', Ok out).
Proof.
  cbn [shows_loop]. rewrite bind_log. cbv beta. rewrite bind_run.
  match goal with
  | |- (let (_, _) := ?m ?st in _) = _ -> _ => destruct (m st) as [s1 [cache'|e]]; [|discriminate]
  end.
  rewrite bind_lift.
  destruct (cache' !! acc_uuid (a_account show)) as [merchandise|] eqn:Hc; [|discriminate].
  rewrite bind_run.
  destruct (fetch_counts srv fuel (show_uuid (a_show show)) s1) as [s2 [counts|e]]; [|discriminate].
  rewrite bind_lift.
  destruct (join_counts show merchandise counts) as [rows|e] eqn:Hj; [|discriminate].
  intros H. exists cache', merchandise, counts, rows, s2. repeat split; assumption.
Qed.

(** Every record of [fetch_all_data]'s loop over the shows belongs to one of
    the shows: its Band, Tour Name, Show Date and Venue
    ("city, stateProvince, country") are those of that show. *)
Theorem records_from_shows (srv : nat -> Request -> option HttpResp) (fuel : nat) :
  forall shows cache all s s' out,
  shows_loop srv fuel shows cache all s = (s', Ok out) ->
  exists new, out = all ++ new /\
    forall r, In r new -> exists show, In show shows /\
      Band r = artistName (a_account show) /\ TourName r = tourName (a_tour show) /\
      ShowDate r = showDate (a_show show) /\
      Venue r = (city (location (a_show show)) ++ ", " ++ stateProvince (location (a_show show))
                 ++ ", " ++ country (location (a_show show)))%string.
Proof.
  induction shows as [|show rest IH]; intros cache all s s' out H.
  - simpl in H. injection H as _ <-. exists []. rewrite app_nil_r.
    split; [reflexivity | intros r []].
  - destruct (shows_loop_cons_ok srv fuel show rest cache all s s' out H)
      as (cache' & merchandise & counts & rows & s2 & _ & Hj & Hrest).
    destruct (IH cache' (all ++ rows) s2 s' out Hrest) as (new & -> & Hnew).
    exists (rows ++ new). split; [rewrite app_assoc; reflexivity|].
    intros r Hr. apply in_app_or in Hr. destruct Hr as [Hr|Hr].
    + exists show. split; [left; reflexivity|].
      exact (join_counts_fields show merchandise counts rows Hj r Hr).
    + destruct (Hnew r Hr) as (sh & Hsh & Hf). exists sh. split; [right; exact Hsh | exact Hf].
Qed.

Lemma records_from_shows_witness :
  shows_loop srv_catalog 3 ex_two_shows ∅ [] (mkSt 0 []) =
    (fst (shows_loop srv_catalog 3 ex_two_shows ∅ [] (mkSt 0 [])),
     Ok [mkSold "BandX" "TourY" "Austin, TX, US" "Tee" "M" "A1" 10 0 8 "2024-06-01" (PNum 2500);
         mkSold "BandX" "TourY" "Dallas, TX, US" "Tee" "M" "A1" 10 0 8 "2024-06-02" (PNum 2500)]) /\
  exists new,
    [mkSold "BandX" "TourY" "Austin, TX, US" "Tee" "M" "A1" 10 0 8 "2024-06-01" (PNum 2500);
     mkSold "BandX" "TourY" "Dallas, TX, US" "Tee" "M" "A1" 10 0 8 "2024-06-02" (PNum 2500)]
      = [] ++ new /\
    forall r, In r new -> exists show, In show ex_two_shows /\
      Band r = artistName (a_account show) /\ TourName r = tourName (a_tour show) /\
      ShowDate r = showDate (a_show show) /\
      Venue r = (city (location (a_show show)) ++ ", " ++ stateProvince (location (a_show show))
                 ++ ", " ++ country (location (a_show show)))%string.
Proof.
  assert (H : shows_loop srv_catalog 3 ex_two_shows ∅ [] (mkSt 0 []) =
    (fst (shows_loop srv_catalog 3 ex_two_shows ∅ [] (mkSt 0 [])),
     Ok [mkSold "BandX" "TourY" "Austin, TX, US" "Tee" "M" "A1" 10 0 8 "2024-06-01" (PNum 2500);
         mkSold "BandX" "TourY" "Dallas, TX, US" "Tee" "M" "A1" 10 0 8 "2024-06-02" (PNum 2500)]))
    by (vm_compute; reflexivity).
  split; [exact H|].
  exact (records_from_shows srv_catalog 3 ex_two_shows ∅ [] (mkSt 0 []) _ _ H).
Defined.

(* ------------------------------------------------------------------ *)
(** ** The requests of a run *)

Section OnlyEvents.
Variable P : Event -> Prop.

Lemma only_ret {A} (x : A) : only_events P (ret x).
Proof. intros s. exists []. rewrite app_nil_r. split; [reflexivity | constructor]. Qed.

Lemma only_raise {A} (e : error) : only_events P (@raise A e).
Proof. intros s. exists []. rewrite app_nil_r. split; [reflexivity | constructor]. Qed.

Lemma only_lift {A} (r : res A) : only_events P (lift r).
Proof. intros s. exists []. rewrite app_nil_r. split; [reflexivity | constructor]. Qed.

Lemma only_log (l : LogLine) : P (EvLog l) -> only_events P (log l).
Proof. intros Hl s. exists [EvLog l]. split; [reflexivity | repeat constructor; exact Hl]. Qed.

Lemma only_bind {A B} (m : M A) (k : A -> M B) :
  only_events P m -> (forall x, only_events P (k x)) -> only_events P (bind m k).
Proof.
  intros Hm Hk s. unfold bind.
  destruct (Hm s) as (new1 & Ht1 & Hn1).
  destruct (m s) as [s1 [x|e]]; simpl in *.
  - destruct (Hk x s1) as (new2 & Ht2 & Hn2).
    exists (new1 ++ new2). rewrite Ht2, Ht1, app_assoc.
    split; [reflexivity | apply Forall_app; split; assumption].
  - exists new1. split; assumption.
Qed.

Lemma only_execute_query (srv : nat -> Request -> option HttpResp) (r : Request) :
  P (EvQuery r) -> only_events P (execute_query srv r).
Proof.
  intros Hr s. exists [EvQuery r]. rewrite execute_query_state.
  split; [reflexivity | repeat constructor; exact Hr].
Qed.

Lemma only_paginate {A} (srv : nat -> Request -> option HttpResp)
    (mkreq : option string -> Request) (extract : Payload -> res (Page A)) :
  (forall c, P (EvQuery (mkreq c))) ->
  forall fuel cursor acc, only_events P (paginate srv mkreq extract fuel cursor acc).
Proof.
  intros Hreq. induction fuel as [|fuel IH]; intros cursor acc; simpl; [apply only_raise|].
  apply only_bind; [apply only_execute_query, Hreq | intros result].
  apply only_bind; [apply only_lift | intros page].
  destruct (negb (hasNextPage page)); [apply only_ret | apply IH].
Qed.

End OnlyEvents.

Ltac only_step :=
  match goal with
  | |- only_events _ (bind _ _) => apply only_bind; [| intros ?]
  | |- only_events _ (ret _) => apply only_ret
  | |- only_events _ (raise _) => apply only_raise
  | |- only_events _ (lift _) => apply only_lift
  | |- only_events _ (log _) => apply only_log; exact I
  end.

Lemma shows_dates_requests (start_date end_date : string) :
  (forall c, shows_dates start_date end_date (EvQuery (accounts_req c))) /\
  (forall u c, shows_dates start_date end_date (EvQuery (tours_req u c))) /\
  (forall t c, shows_dates start_date end_date (EvQuery (shows_req t start_date end_date c))) /\
  (forall u c, shows_dates start_date end_date (EvQuery (merch_req u c))) /\
  (forall u c, shows_dates start_date end_date (EvQuery (counts_req u c))).
Proof.
  repeat split; intros; simpl; intros Hq; try discriminate Hq.
  do 2 eexists. reflexivity.
Qed.

(** Every shows query that [fetch_all_data start_date end_date] sends asks
    for the shows overlapping exactly [start_date .. end_date]: its variables
    are a tour uuid, these two dates and a cursor. *)
Theorem shows_queries_use_date_range (srv : nat -> Request -> option HttpResp) (fuel : nat)
    (start_date end_date : string) (s : St) :
  exists new, trace (fst (fetch_all_data srv fuel start_date end_date s)) = trace s ++ new /\
    Forall (shows_dates start_date end_date) new.
Proof.
  destruct (shows_dates_requests start_date end_date) as (Ha & Ht & Hs & Hm & Hc).
  assert (Htours : forall account tours all,
    only_events (shows_dates start_date end_date)
      (tours_loop srv fuel start_date end_date account tours all)).
  { intros account tours. induction tours as [|tour rest IH]; intros all; simpl;
      repeat only_step; [unfold fetch_shows; apply only_paginate, Hs | apply IH]. }
  assert (Haccs : forall accounts all,
    only_events (shows_dates start_date end_date)
      (accounts_loop srv fuel start_date end_date accounts all)).
  { induction accounts as [|account rest IH]; intros all; simpl;
      repeat only_step; [unfold fetch_tours; apply only_paginate, Ht | apply Htours | apply IH]. }
  assert (Hshows : forall shows cache all,
    only_events (shows_dates start_date end_date) (shows_loop srv fuel shows cache all)).
  { induction shows as [|show rest IH]; intros cache all; simpl; repeat only_step.
    - destruct (cache !! acc_uuid (a_account show)); repeat only_step.
      unfold fetch_merchandise. repeat only_step. apply only_paginate, Hm.
    - unfold fetch_counts. repeat only_step. apply only_paginate, Hc.
    - apply IH. }
  assert (Hall : only_events (shows_dates start_date end_date)
                  (fetch_all_data srv fuel start_date end_date)).
  { unfold fetch_all_data, fetch_shows_in_date_range. repeat only_step.
    - unfold fetch_accounts. apply only_paginate, Ha.
    - apply Haccs.
    - apply Hshows. }
  exact (Hall s).
Qed.

(* ------------------------------------------------------------------ *)
(** ** The band filter of the export *)

Lemma string_app_nil_l (a : string) : ("" ++ a)%string = a.
Proof. reflexivity. Qed.

Lemma string_app_nil_r (a : string) : (a ++ "")%string = a.
Proof. induction a as [|ch a IH]; [reflexivity | rewrite string_app_cons, IH; reflexivity]. Qed.

Lemma string_length_app (a b : string) :
  String.length (a ++ b) = (String.length a + String.length b)%nat.
Proof.
  induction a as [|ch a IH]; [reflexivity|].
  rewrite string_app_cons. simpl. rewrite IH. reflexivity.
Qed.

Lemma prefix_app (sep : string) : forall x y,
  (String.length sep <= String.length x)%nat ->
  String.prefix sep (x ++ y) = String.prefix sep x.
Proof.
  induction sep as [|c sep IH]; intros x y Hlen; [destruct x, y; reflexivity|].
  destruct x as [|d x]; [simpl in Hlen; lia|].
  rewrite string_app_cons. simpl.
  destruct (Ascii.ascii_dec c d); [apply IH; simpl in Hlen; lia | reflexivity].
Qed.

Lemma prefix_self_app (sep b : string) : String.prefix sep (sep ++ b) = true.
Proof.
  induction sep as [|c sep IH]; [destruct b; reflexivity|].
  rewrite string_app_cons. simpl.
  destruct (Ascii.ascii_dec c c) as [_|Hne]; [exact IH | contradiction].
Qed.

Lemma split_first_sep (sep b : string) : sep <> ""%string -> split_first sep (sep ++ b) = ""%string.
Proof.
  intros Hne. destruct sep as [|c sep]; [contradiction|].
  rewrite string_app_cons. cbn [split_first].
  rewrite <- string_app_cons, prefix_self_app. reflexivity.
Qed.

Lemma split_first_app_sep (sep : string) : sep <> ""%string ->
  forall a b, split_first sep (a ++ sep ++ b) = split_first sep (a ++ sep).
Proof.
  intros Hne. induction a as [|c a IH]; intros b.
  - rewrite !string_app_nil_l, (split_first_sep sep b Hne).
    pose proof (split_first_sep sep "" Hne) as H0. rewrite string_app_nil_r in H0.
    rewrite H0. reflexivity.
  - rewrite !string_app_cons. cbn [split_first]. rewrite IH.
    replace (String c (a ++ sep ++ b)) with (String c (a ++ sep) ++ b)%string
      by (rewrite string_app_cons, string_app_assoc; reflexivity).
    rewrite prefix_app; [reflexivity|].
    simpl. rewrite string_length_app. lia.
Qed.

Lemma split_first_prefix (sep : string) : sep <> ""%string ->
  forall a, exists rest, (split_first sep (a ++ sep) ++ rest)%string = a.
Proof.
  intros Hne. induction a as [|c a IH].
  - exists ""%string. rewrite string_app_nil_l.
    pose proof (split_first_sep sep "" Hne) as H0. rewrite string_app_nil_r in H0.
    rewrite H0. reflexivity.
  - rewrite string_app_cons. cbn [split_first].
    destruct (String.prefix sep (String c (a ++ sep))).
    + exists (String c a). reflexivity.
    + destruct IH as [rest Hrest]. exists rest.
      rewrite string_app_cons, Hrest. reflexivity.
Qed.

(** The key under which [main] files a row for the band checkboxes,
    [Location.str.split(' - ').str[0]] with Location = Band + ' - ' + Tour Name,
    depends on the band name only, never on the tour name, and is a prefix of
    the band name; a band name that itself contains ' - ' is cut there, so two
    band names that agree up to their first ' - ' share one key. *)
Theorem band_key_of_location :
  forall band tour_name : string,
    split_first " - " (band ++ " - " ++ tour_name) = split_first " - " (band ++ " - ") /\
    (exists rest, (split_first " - " (band ++ " - ") ++ rest)%string = band) /\
    (forall a1 a2 : string, band = (a1 ++ " - " ++ a2)%string ->
       split_first " - " (band ++ " - " ++ tour_name) = split_first " - " (a1 ++ " - ")).
Proof.
  intros band tour_name.
  assert (Hne : " - "%string <> ""%string) by discriminate.
  split; [apply (split_first_app_sep " - " Hne)|].
  split; [apply (split_first_prefix " - " Hne)|].
  intros a1 a2 ->.
  rewrite string_app_assoc, string_app_assoc.
  apply (split_first_app_sep " - " Hne).
Qed.

Lemma band_key_of_location_witness :
  "Earth - Wind"%string = ("Earth" ++ " - " ++ "Wind")%string /\
  split_first " - " ("Earth - Wind" ++ " - " ++ "Tour 1") = "Earth"%string.
Proof.
  split; [reflexivity|].
  rewrite (proj2 (proj2 (band_key_of_location "Earth - Wind" "Tour 1")) "Earth" "Wind" eq_refl).
  reflexivity.
Defined.

Lemma existsb_eqb_in (x : string) (l : list string) : existsb (String.eqb x) l = true <-> In x l.
Proof.
  rewrite existsb_exists. split.
  - intros (y & Hy & Heq). apply String.eqb_eq in Heq. subst y. exact Hy.
  - intros Hx. exists x. split; [exact Hx | apply String.eqb_refl].
Qed.

Lemma unique_from_spec (l : list string) : forall seen,
  NoDup (unique_from seen l) /\
  (forall x, In x (unique_from seen l) <-> In x l /\ ~ In x seen).
Proof.
  induction l as [|y l IH]; intros seen; simpl.
  - split; [constructor | intros x; split; [intros [] | intros [[] _]]].
  - destruct (existsb (String.eqb y) seen) eqn:Hseen.
    + apply existsb_eqb_in in Hseen.
      destruct (IH seen) as [Hnd Hin]. split; [exact Hnd|].
      intros x. rewrite Hin. split; [intros [Hx Hn]; split; [right; exact Hx | exact Hn]|].
      intros [[<- | Hx] Hn]; [contradiction | split; assumption].
    + assert (Hy : ~ In y seen) by (rewrite <- existsb_eqb_in, Hseen; discriminate).
      destruct (IH (y :: seen)) as [Hnd Hin]. split.
      * constructor; [|exact Hnd]. intros Hc. apply list_elem_of_In, Hin in Hc. destruct Hc as [_ Hn].
        apply Hn. left. reflexivity.
      * intros x. simpl. rewrite Hin. split.
        -- intros [<- | [Hx Hn]]; [split; [left; reflexivity | exact Hy]|].
           split; [right; exact Hx | intros Hs; apply Hn; right; exact Hs].
        -- intros [[<- | Hx] Hn]; [left; reflexivity|].
           destruct (String.eqb_spec y x) as [<- | Hne]; [left; reflexivity|].
           right. split; [exact Hx|]. intros [Heq | Hs]; [contradiction | exact (Hn Hs)].
Qed.

(** [Series.unique()] on the band keys, which gives one checkbox per band:
    every key occurs once among the checkboxes, and the checkboxes are exactly
    the keys occurring in the table. *)
Theorem band_checkboxes_unique (keys : list string) :
  NoDup (unique_from [] keys) /\ (forall x, In x (unique_from [] keys) <-> In x keys).
Proof.
  destruct (unique_from_spec keys []) as [Hnd Hin]. split; [exact Hnd|].
  intros x. rewrite Hin. split; [intros [Hx _]; exact Hx | intros Hx; split; [exact Hx | intros []]].
Qed.

(* ------------------------------------------------------------------ *)
(** ** The log area *)

(** The log area of [main] shows a single line: after the logger has handled
    a sequence of records, the placeholder displays the formatted last record
    of level INFO or above, and is unchanged when there is none; DEBUG records,
    such as those of [calculate_sold], never reach it. *)
Theorem log_area_shows_last (records : list LogRecord) (ph : Placeholder) :
  run_logger records ph =
  match find (fun record => Z.leb 20 (levelno record)) (rev records) with
  | Some record => Some (format record)
  | None => ph
  end.
Proof.
  induction records as [|record records IH] using rev_ind; [reflexivity|].
  unfold run_logger in *. rewrite fold_left_app, IH, rev_unit. simpl.
  unfold logger_handle, emit, placeholder_text, placeholder_empty.
  destruct (Z.leb 20 (levelno record)); reflexivity.
Qed.
